(** * SerialPortWriter: the handshake and write-loop worker

    A model of [MultiInput/qt/serialportwriter.cpp].  The worker thread
    talks to a [QSerialPort], to the clock, to its signal receivers and to
    the fields it shares with the owning thread.  Each such interaction is
    an [Action]; the code between two interactions is pure and is folded
    into the transition that follows the earlier one.  A thread is then a
    machine that, in a given state, accepts exactly the actions the code can
    perform next, the results chosen by the environment (what a read
    returned, what [m_quit] held) being part of the action.  Program points
    are named after the source lines they stand for. *)

From Stdlib Require Import List String ZArith Bool Lia.
From Stdlib Require Import Strings.Byte.
Import ListNotations.

Local Open Scope string_scope.
Local Open Scope list_scope.
Local Open Scope Z_scope.

(** ** Signals and their texts *)

(** The argument of a signal is a [QString] built by [tr] and [.arg]; the
    expression is kept as written, Qt's place-marker substitution is not
    evaluated. *)
Inductive QString : Type :=
| tr (s : string)
| arg (q : QString) (a : string)
| argn (q : QString) (n : Z).

(** The four signals of [SerialPortWriter]. *)
Inductive Signal : Type :=
| message (q : QString)
| timeout (q : QString)
| error (q : QString)
| writeComplete.

(** ** Actions *)

Inductive Action : Type :=
(* signals *)
| Emit (s : Signal)
(* QSerialPort *)
| SetPortName (name : string)
| SetBaudRate (baud : Z)
| Open (ok : bool)
| GetError (code : Z)
| Clear
| Write (bytes : list byte)
| WaitForReadyRead (msecs : Z) (ready : bool)
| Read (maxSize : Z) (numRead : Z) (readBuf : list byte)
| ReadAll (bytes : list byte)
| Close
(* QTime::currentTime().toString() *)
| CurrentTime (now : string)
(* m_mutex, m_cond, and the fields they guard *)
| Lock
| Unlock
| WakeOne
| LoadQuit (q : bool)
| StoreQuit (q : bool)
| LoadData (d : list byte)
| StoreDataBegin (d : list byte)
| StoreDataEnd
(* QThread::wait() *)
| Join.

Definition QString_eq_dec (x y : QString) : {x = y} + {x <> y}.
Proof. decide equality; [apply string_dec | apply string_dec | apply Z.eq_dec]. Defined.

Definition Signal_eq_dec (x y : Signal) : {x = y} + {x <> y}.
Proof. decide equality; apply QString_eq_dec. Defined.

Definition Action_eq_dec (x y : Action) : {x = y} + {x <> y}.
Proof.
  decide equality;
    try apply Signal_eq_dec; try apply string_dec; try apply Z.eq_dec;
    try apply Bool.bool_dec; apply (list_eq_dec byte_eq_dec).
Defined.

(** [expecting a wanted next]: the code performs [wanted] and goes on to
    [next]; any other action is not a behaviour of the code. *)
Definition expecting {T : Type} (a wanted : Action) (next : T) : option T :=
  if Action_eq_dec a wanted then Some next else None.

(** ** writeAndExpectResponse (lines 35-47) *)

Inductive ProbePC : Type :=
| W37   (* serial->clear() *)
| W38   (* serial->write(&send, 1) *)
| W39   (* serial->waitForReadyRead(100) *)
| W42.  (* serial->read(readBuf, 128) *)

(** What [QIODevice::read] may return into a 128-byte buffer: the number of
    bytes read, at most [maxSize], or -1. *)
Definition read_result (maxSize numRead : Z) (readBuf : list byte) : bool :=
  (-1 <=? numRead) && (numRead <=? maxSize) && (Z.of_nat (List.length readBuf) =? 128).

(** Line 43: [numRead > 0 && readBuf[numRead - 1] == expect]. *)
Definition expectation (numRead : Z) (readBuf : list byte) (expect : byte) : bool :=
  (numRead >? 0) && Byte.eqb (nth (Z.to_nat (numRead - 1)) readBuf x00) expect.

(** One action of the function: [inl p] goes on at [p], [inr b] returns [b]. *)
Definition writeAndExpectResponse (send expect : byte) (p : ProbePC) (a : Action)
  : option (ProbePC + bool) :=
  match p with
  | W37 => expecting a Clear (inl W38)
  | W38 => expecting a (Write [send]) (inl W39)
  | W39 =>
      match a with
      | WaitForReadyRead msecs ready =>
          if msecs =? 100
          then Some (if negb ready then inr false else inl W42)
          else None
      | _ => None
      end
  | W42 =>
      match a with
      | Read maxSize numRead readBuf =>
          if (maxSize =? 128) && read_result maxSize numRead readBuf
          then Some (inr (if negb (expectation numRead readBuf expect) then false else true))
          else None
      | _ => None
      end
  end.



(** ** run (lines 49-104) *)

Inductive Stage : Type := Stage1 | Stage2 | Stage3.

Definition index (k : Stage) : nat :=
  match k with Stage1 => 0 | Stage2 => 1 | Stage3 => 2 end%nat.

Inductive PC : Type :=
| L52               (* if (m_portName.isEmpty()) ... setPortName *)
| L57               (* serial.setBaudRate(19200) *)
| L58               (* serial.open(ReadWrite) *)
| L59               (* serial.error() *)
| L59e (code : Z)   (* emit error(Can't open ...) *)
| L63               (* emit message(Serial port opened) *)
| L64               (* emit message(Synchronizing hardware) *)
| L68               (* while (!m_quit && !synced) *)
| LCall (k : Stage) (p : ProbePC)  (* lines 69, 73, 80: in writeAndExpectResponse *)
| LOk (k : Stage)   (* lines 70, 74, 81: emit message(stage complete) *)
| LFail (k : Stage) (* lines 76, 83: emit timeout(failed at stage) *)
| L89               (* emit message(Synced successfully) *)
| L91               (* while (!m_quit) *)
| L92               (* m_mutex.lock() *)
| L93               (* serial.write(data): the read of data *)
| L93w (d : list byte)  (* serial.write(data): the write *)
| L94               (* m_mutex.unlock() *)
| L95               (* serial.waitForReadyRead(40) *)
| L96               (* QTime::currentTime().toString() *)
| L96e (now : string)   (* emit timeout(Wait read response timeout) *)
| L98               (* serial.readAll() *)
| L99               (* emit writeComplete() *)
| L103              (* serial.close() *)
| Done.

Record Worker : Type := {
  m_portName : string;
  pc : PC;
  synced : bool
}.

Definition goto (w : Worker) (l : PC) : Worker :=
  {| m_portName := m_portName w; pc := l; synced := synced w |}.

Definition set_synced (w : Worker) (b : bool) : Worker :=
  {| m_portName := m_portName w; pc := pc w; synced := b |}.

Definition isEmpty (s : string) : bool :=
  match s with EmptyString => true | String _ _ => false end.

Definition stage_complete (k : Stage) : QString :=
  match k with
  | Stage1 => tr "Handshake stage 1 complete"
  | Stage2 => tr "Handshake stage 2 complete"
  | Stage3 => tr "Handshake stage 3 complete"
  end.

(** Only stages 2 and 3 have a failure text: the else of stage 1 is a bare
    [continue], and [LFail Stage1] is never entered. *)
Definition stage_failed (k : Stage) : QString :=
  match k with
  | Stage1 => tr EmptyString
  | Stage2 => tr "Handshake failed at stage 2, retrying..."
  | Stage3 => tr "Handshake failed at stage 3, retrying..."
  end.

Section Run.

(** The handshake tables [sync_bytes] and [sync_resp] are declared in the
    header; [run] reads their entries 0, 1 and 2. *)
Variables sync_bytes sync_resp : nat -> byte.

Definition step (w : Worker) (a : Action) : option Worker :=
  match pc w with
  | L52 =>
      if isEmpty (m_portName w)
      then expecting a (Emit (error (tr "No port name specified"))) (goto w Done)
      else expecting a (SetPortName (m_portName w)) (goto w L57)
  | L57 => expecting a (SetBaudRate 19200) (goto w L58)
  | L58 =>
      match a with
      | Open ok => Some (if negb ok then goto w L59 else goto w L63)
      | _ => None
      end
  | L59 =>
      match a with
      | GetError code => Some (goto w (L59e code))
      | _ => None
      end
  | L59e code =>
      expecting a
        (Emit (error (argn (arg (tr "Can't open %1, error code %2") (m_portName w)) code)))
        (goto w Done)
  | L63 => expecting a (Emit (message (tr "Serial port opened"))) (goto w L64)
  | L64 =>
      expecting a (Emit (message (tr "Synchronizing hardware")))
        (goto (set_synced w false) L68)
  | L68 =>
      match a with
      | LoadQuit q =>
          Some (if negb q && negb (synced w) then goto w (LCall Stage1 W37) else goto w L89)
      | _ => None
      end
  | LCall k p =>
      match writeAndExpectResponse (sync_bytes (index k)) (sync_resp (index k)) p a with
      | Some (inl p') => Some (goto w (LCall k p'))
      | Some (inr true) => Some (goto w (LOk k))
      | Some (inr false) =>
          Some (match k with
                | Stage1 => goto w L68             (* else continue; *)
                | _ => goto w (LFail k)
                end)
      | None => None
      end
  | LOk k =>
      expecting a (Emit (message (stage_complete k)))
        (match k with
         | Stage1 => goto w (LCall Stage2 W37)
         | Stage2 => goto w (LCall Stage3 W37)
         | Stage3 => goto (set_synced w true) L68  (* synced = true; *)
         end)
  | LFail k => expecting a (Emit (timeout (stage_failed k))) (goto w L68)
  | L89 => expecting a (Emit (message (tr "Synced successfully"))) (goto w L91)
  | L91 =>
      match a with
      | LoadQuit q => Some (if negb q then goto w L92 else goto w L103)
      | _ => None
      end
  | L92 => expecting a Lock (goto w L93)
  | L93 =>
      match a with
      | LoadData d => Some (goto w (L93w d))
      | _ => None
      end
  | L93w d => expecting a (Write d) (goto w L94)
  | L94 => expecting a Unlock (goto w L95)
  | L95 =>
      match a with
      | WaitForReadyRead msecs ready =>
          if msecs =? 40
          then Some (if negb ready then goto w L96 else goto w L98)
          else None
      | _ => None
      end
  | L96 =>
      match a with
      | CurrentTime now => Some (goto w (L96e now))
      | _ => None
      end
  | L96e now =>
      expecting a (Emit (timeout (arg (tr "Wait read response timeout %1") now)))
        (goto w L91)
  | L98 =>
      match a with
      | ReadAll _ => Some (goto w L99)
      | _ => None
      end
  | L99 => expecting a (Emit writeComplete) (goto w L91)
  | L103 => expecting a Close (goto w Done)
  | Done => None
  end.

(** The worker after a sequence of actions, if the code can perform it. *)
Fixpoint exec (w : Worker) (t : list Action) : option Worker :=
  match t with
  | [] => Some w
  | a :: t' =>
      match step w a with
      | Some w' => exec w' t'
      | None => None
      end
  end.

End Run.

(** The thread as [start()] finds it: at the top of [run]. *)
Definition start (portName : string) : Worker :=
  {| m_portName := portName; pc := L52; synced := false |}.

(** Modelled from the spec: the header that declares [sync_bytes] and
    [sync_resp] is missing; Scenario A gives probe bytes
    [0x55, 0x41, 0x0D] and expected responses [0xAA, 0x06, 0x0A]. *)
Definition scenario_sync_bytes (i : nat) : byte := nth i [x55; x41; x0d] x00.
Definition scenario_sync_resp (i : nat) : byte := nth i [xaa; x06; x0a] x00.

(** ** Reading traces *)

(** A 128-byte [readBuf] whose first bytes are [l]. *)
Definition buffer (l : list byte) : list byte :=
  l ++ repeat x00 (128 - List.length l).

(** The program points of the three handshake steps. *)
Definition handshaking (l : PC) : bool :=
  match l with
  | LCall _ _ | LOk _ | LFail _ => true
  | _ => false
  end.

(** The program points after the handshake loop. *)
Definition past_loop (l : PC) : bool :=
  match l with
  | L89 | L91 | L92 | L93 | L93w _ | L94 | L95 | L96 | L96e _ | L98 | L99
  | L103 | Done => true
  | _ => false
  end.

(** The worker has left the handshake: it is past the loop, or at the loop
    test with [synced] set, which ends the loop whatever [m_quit] holds. *)
Definition left_handshake (w : Worker) : bool :=
  past_loop (pc w) ||
  match pc w with L68 => synced w | _ => false end.

(** The port calls only [writeAndExpectResponse] makes: clearing the
    buffers before a probe and reading a response to check it. *)
Definition probe_io (a : Action) : bool :=
  match a with
  | Clear | Read _ _ _ => true
  | _ => false
  end.

(** The notifications of the handshake steps. *)
Definition step_note (a : Action) : bool :=
  match a with
  | Emit (message q) =>
      if QString_eq_dec q (stage_complete Stage1) then true
      else if QString_eq_dec q (stage_complete Stage2) then true
      else if QString_eq_dec q (stage_complete Stage3) then true
      else false
  | Emit (timeout q) =>
      if QString_eq_dec q (stage_failed Stage2) then true
      else if QString_eq_dec q (stage_failed Stage3) then true
      else false
  | _ => false
  end.


(** A timeout or error notification. *)
Definition reports (a : Action) : bool :=
  match a with
  | Emit (timeout _) | Emit (error _) => true
  | _ => false
  end.





(** One pass of the write loop body (lines 92-100): [d] is the payload found
    in [data], [ready] the outcome of the wait, [now] the clock's answer and
    [got] what [readAll] returned. *)
Definition cycle (d : list byte) (ready : bool) (now : string) (got : list byte)
  : list Action :=
  [Lock; LoadData d; Write d; Unlock; WaitForReadyRead 40 ready] ++
  (if negb ready
   then [CurrentTime now;
         Emit (timeout (arg (tr "Wait read response timeout %1") now))]
   else [ReadAll got; Emit writeComplete]).

(** [t] is an initial part of [u]. *)
Definition prefix (t u : list Action) : Prop := exists r, u = t ++ r.

(** ** Scenarios *)

(** The worker of the scenarios, at program point [l] of the handshake. *)
Definition at_pc (l : PC) : Worker :=
  {| m_portName := "COM3"; pc := l; synced := false |}.

(** The worker right after [synced = true] (line 87). *)
Definition just_synced : Worker :=
  {| m_portName := "COM3"; pc := L68; synced := true |}.

(** Step 1 answered correctly at once, and the probe of step 2 sent. *)
Definition stage1_then_probe2 : list Action :=
  [SetPortName "COM3"; SetBaudRate 19200; Open true;
   Emit (message (tr "Serial port opened"));
   Emit (message (tr "Synchronizing hardware"));
   LoadQuit false;
   Clear; Write [x55]; WaitForReadyRead 100 true; Read 128 1 (buffer [xaa]);
   Emit (message (tr "Handshake stage 1 complete"));
   Clear; Write [x41]].


(** The program points before the port has been opened. *)
Definition configuring (l : PC) : bool :=
  match l with
  | L52 | L57 | L58 => true
  | _ => false
  end.

(** The calls that set the port up and open it. *)
Definition setup_io (a : Action) : bool :=
  match a with
  | SetPortName _ | SetBaudRate _ | Open _ => true
  | _ => false
  end.

(** ** The owner's side: changeData (lines 29-33) and the destructor
    (lines 21-27) *)

(** [const QMutexLocker locker(&m_mutex)] locks on entry and unlocks on
    return.  The assignment [data = newData] is not one indivisible step:
    between [StoreDataBegin] and [StoreDataEnd] the object is part old,
    part new. *)
Definition changeData (newData : list byte) : list Action :=
  [Lock; StoreDataBegin newData; StoreDataEnd; WakeOne; Unlock].

Definition destructor : list Action :=
  [Lock; StoreQuit true; WakeOne; Unlock; Join].

(** ** Lock discipline of one thread *)

(** The accesses to the Payload and to the StopFlag. *)
Definition shared_access (a : Action) : bool :=
  match a with
  | LoadQuit _ | StoreQuit _ | LoadData _ | StoreDataBegin _ | StoreDataEnd => true
  | _ => false
  end.

(** The calls that may suspend the caller: the timed waits on the port and
    the join.  [QSerialPort::write] only queues the bytes. *)
Definition blocking (a : Action) : bool :=
  match a with
  | WaitForReadyRead _ _ | Join => true
  | _ => false
  end.

(** A policy says which actions a thread may perform while it holds the
    lock ([held = true]) and while it does not. *)
Definition Policy : Type := bool -> Action -> bool.

Definition lock_well_used (held : bool) (a : Action) : bool :=
  match a with
  | Lock => negb held
  | Unlock => held
  | _ => true
  end.

(** Every access to the Payload or the StopFlag under the lock, and no
    blocking call under it. *)
Definition policy_all_under_lock : Policy := fun held a =>
  lock_well_used held a &&
  (if shared_access a then held else true) &&
  (if blocking a then negb held else true).

(** What the code keeps to: the Payload is read and stored, and the
    StopFlag stored, under the lock only; the StopFlag is read without it;
    besides these the lock is held only over the port's [write] and the
    wake-up; everything else, the blocking calls among it, is done without
    the lock. *)
Definition policy_of_the_code : Policy := fun held a =>
  match a with
  | Lock => negb held
  | Unlock => held
  | LoadData _ | StoreDataBegin _ | StoreDataEnd | StoreQuit _ => held
  | LoadQuit _ => negb held
  | Write _ | WakeOne => true
  | _ => negb held
  end.

Definition holds_after (held : bool) (a : Action) : bool :=
  match a with
  | Lock => true
  | Unlock => false
  | _ => held
  end.

(** A thread's actions keep to a policy, [held] telling whether it holds
    the lock at the start. *)
Fixpoint respects (p : Policy) (held : bool) (t : list Action) : bool :=
  match t with
  | [] => true
  | a :: t' => p held a && respects p (holds_after held a) t'
  end.

(** Every run of the worker and both methods of the owner keep to [p]. *)
Definition lock_discipline (p : Policy)
    (sync_bytes sync_resp : nat -> byte) (portName : string) : Prop :=
  (forall (t : list Action) (w : Worker),
      exec sync_bytes sync_resp (start portName) t = Some w ->
      respects p false t = true) /\
  (forall newData, respects p false (changeData newData) = true) /\
  respects p false destructor = true.

(** The program points at which the worker holds the lock. *)
Definition in_critical_section (l : PC) : bool :=
  match l with
  | L93 | L93w _ | L94 => true
  | _ => false
  end.

(** The worker up to its first read of the StopFlag. *)
Definition up_to_first_check : list Action :=
  [SetPortName "COM3"; SetBaudRate 19200; Open true;
   Emit (message (tr "Serial port opened"));
   Emit (message (tr "Synchronizing hardware"));
   LoadQuit false].

(** ** The two threads together *)

Inductive Thread : Type := TWorker | TOwner.

Definition Thread_eq_dec (x y : Thread) : {x = y} + {x <> y}.
Proof. decide equality. Defined.

(** The field [data]: whole, or in the middle of an assignment that is
    replacing [old] by [new], when its bytes are a mixture of both. *)
Inductive Cell : Type :=
| Whole (d : list byte)
| Torn (old new : list byte).

(** The fields shared by the threads.  [m_mutex] is [Some] of its holder. *)
Record Shared : Type := {
  m_mutex : option Thread;
  data : Cell;
  m_quit : bool
}.

(** The effect of an action of thread [who] on the shared fields, and
    whether the fields allow it: a [Lock] waits for the mutex to be free, a
    load returns what the field holds; a load of a torn [data] may return
    anything.  Actions on the port, the clock and the signals leave the
    fields alone. *)
Definition access (who : Thread) (a : Action) (m : Shared) : option Shared :=
  match a with
  | Lock =>
      match m_mutex m with
      | None => Some {| m_mutex := Some who; data := data m; m_quit := m_quit m |}
      | Some _ => None
      end
  | Unlock =>
      match m_mutex m with
      | Some holder =>
          if Thread_eq_dec holder who
          then Some {| m_mutex := None; data := data m; m_quit := m_quit m |}
          else None
      | None => None
      end
  | LoadQuit q => if Bool.eqb q (m_quit m) then Some m else None
  | StoreQuit q => Some {| m_mutex := m_mutex m; data := data m; m_quit := q |}
  | LoadData d =>
      match data m with
      | Whole d' => if list_eq_dec byte_eq_dec d d' then Some m else None
      | Torn _ _ => Some m
      end
  | StoreDataBegin d =>
      Some {| m_mutex := m_mutex m;
              data := match data m with
                      | Whole old => Torn old d
                      | Torn old _ => Torn old d
                      end;
              m_quit := m_quit m |}
  | StoreDataEnd =>
      Some {| m_mutex := m_mutex m;
              data := match data m with
                      | Whole d => Whole d
                      | Torn _ new => Whole new
                      end;
              m_quit := m_quit m |}
  | _ => Some m
  end.

(** The owner calls [changeData] any number of times and then destroys the
    worker. *)
Inductive Method : Type :=
| ChangeData (newData : list byte)
| Destructor.

Definition body (m : Method) : list Action :=
  match m with
  | ChangeData newData => changeData newData
  | Destructor => destructor
  end.

(** What happens, in the order it happens: an action of the worker, the
    owner entering a method, an action of the owner inside it. *)
Inductive Event : Type :=
| WorkerDoes (a : Action)
| OwnerCalls (m : Method)
| OwnerDoes (a : Action).

(** [pending] is what is left of the method the owner is in; [alive] until
    the destructor is entered. *)
Record System : Type := {
  worker : Worker;
  pending : list Action;
  alive : bool;
  shared : Shared
}.

Section Together.

Variables sync_bytes sync_resp : nat -> byte.

Definition sys_step (s : System) (e : Event) : option System :=
  match e with
  | WorkerDoes a =>
      match step sync_bytes sync_resp (worker s) a, access TWorker a (shared s) with
      | Some w', Some m' =>
          Some {| worker := w'; pending := pending s; alive := alive s; shared := m' |}
      | _, _ => None
      end
  | OwnerCalls m =>
      match pending s with
      | [] =>
          if alive s
          then Some {| worker := worker s; pending := body m;
                       alive := match m with Destructor => false | _ => true end;
                       shared := shared s |}
          else None
      | _ :: _ => None
      end
  | OwnerDoes a =>
      match pending s with
      | [] => None
      | a' :: rest =>
          if Action_eq_dec a a'
          then
            (* wait() returns once run() has returned *)
            match a, pc (worker s) with
            | Join, Done =>
                Some {| worker := worker s; pending := rest; alive := alive s;
                        shared := shared s |}
            | Join, _ => None
            | _, _ =>
                match access TOwner a (shared s) with
                | Some m' =>
                    Some {| worker := worker s; pending := rest; alive := alive s;
                            shared := m' |}
                | None => None
                end
            end
          else None
      end
  end.

Fixpoint sys_exec (s : System) (sched : list Event) : option System :=
  match sched with
  | [] => Some s
  | e :: sched' =>
      match sys_step s e with
      | Some s' => sys_exec s' sched'
      | None => None
      end
  end.

End Together.

(** The worker constructed with [portName] and the payload [data0] (lines
    15-19) and started.  Modelled from the spec: the header with the
    initialiser of [m_quit] is missing; the StopFlag is a boolean set once,
    by the owner, so it starts clear. *)
Definition boot (portName : string) (data0 : list byte) : System :=
  {| worker := start portName;
     pending := [];
     alive := true;
     shared := {| m_mutex := None; data := Whole data0; m_quit := false |} |}.

(** The payload as the calls of [changeData] that have returned leave it:
    [committed] is the argument of the last call that returned, [calling]
    the argument of a call in progress. *)
Record Updates : Type := {
  committed : list byte;
  calling : option (list byte)
}.

Definition note (u : Updates) (e : Event) : Updates :=
  match e with
  | OwnerCalls (ChangeData d) => {| committed := committed u; calling := Some d |}
  | OwnerDoes Unlock =>
      {| committed := match calling u with Some d => d | None => committed u end;
         calling := None |}
  | _ => u
  end.

Definition last_update (data0 : list byte) (sched : list Event) : list byte :=
  committed (fold_left note sched {| committed := data0; calling := None |}).

(** The actions only the owner's methods perform. *)
Definition owner_only (a : Action) : bool :=
  match a with
  | StoreQuit _ | StoreDataBegin _ | StoreDataEnd | WakeOne | Join => true
  | _ => false
  end.

(** Scenario A: the device answers each probe correctly at once. *)
Definition scenario_A : list Action :=
  [SetPortName "COM3"; SetBaudRate 19200; Open true;
   Emit (message (tr "Serial port opened"));
   Emit (message (tr "Synchronizing hardware"));
   LoadQuit false;
   Clear; Write [x55]; WaitForReadyRead 100 true; Read 128 1 (buffer [xaa]);
   Emit (message (tr "Handshake stage 1 complete"));
   Clear; Write [x41]; WaitForReadyRead 100 true; Read 128 1 (buffer [x06]);
   Emit (message (tr "Handshake stage 2 complete"));
   Clear; Write [x0d]; WaitForReadyRead 100 true; Read 128 1 (buffer [x0a]);
   Emit (message (tr "Handshake stage 3 complete"));
   LoadQuit false;
   Emit (message (tr "Synced successfully"))].

(** Scenario D: after the handshake the payload [0x01, 0x02] is being
    written when the owner calls [changeData] with [0x01, 0x02, 0x03]; the
    call waits for the lock and stores while the worker waits for the
    response, and the next pass of the write loop reads the payload. *)
Definition scenario_D : list Event :=
  map WorkerDoes scenario_A ++
  [WorkerDoes (LoadQuit false);
   WorkerDoes Lock; WorkerDoes (LoadData [x01; x02]);
   OwnerCalls (ChangeData [x01; x02; x03]);
   WorkerDoes (Write [x01; x02]); WorkerDoes Unlock;
   OwnerDoes Lock; OwnerDoes (StoreDataBegin [x01; x02; x03]);
   WorkerDoes (WaitForReadyRead 40 true);
   OwnerDoes StoreDataEnd; OwnerDoes WakeOne;
   WorkerDoes (ReadAll [x06]); WorkerDoes (Emit writeComplete);
   WorkerDoes (LoadQuit false);
   OwnerDoes Unlock;
   WorkerDoes Lock].

(** ** The invariant of the two threads *)

(** Where the owner is in its method, with what this means for the call in
    progress, for whether the owner holds the lock, and for [data], [c]
    being the payload left by the calls that have returned. *)
Inductive owner_at (c : list byte)
  : list Action -> option (list byte) -> bool -> Cell -> Prop :=
| at_idle : owner_at c [] None false (Whole c)
| at_change_entry d :
    owner_at c (changeData d) (Some d) false (Whole c)
| at_change_locked d :
    owner_at c [StoreDataBegin d; StoreDataEnd; WakeOne; Unlock] (Some d) true (Whole c)
| at_change_storing d :
    owner_at c [StoreDataEnd; WakeOne; Unlock] (Some d) true (Torn c d)
| at_change_stored d :
    owner_at c [WakeOne; Unlock] (Some d) true (Whole d)
| at_change_woken d :
    owner_at c [Unlock] (Some d) true (Whole d)
| at_destroy_entry : owner_at c destructor None false (Whole c)
| at_destroy_locked :
    owner_at c [StoreQuit true; WakeOne; Unlock; Join] None true (Whole c)
| at_destroy_stored : owner_at c [WakeOne; Unlock; Join] None true (Whole c)
| at_destroy_woken : owner_at c [Unlock; Join] None true (Whole c)
| at_destroy_join : owner_at c [Join] None false (Whole c).

(** The mutex is held by the thread that is in its critical section, the
    two are never in theirs together, and a payload the worker has read
    for writing is the one the returned calls left. *)
Record consistent (s : System) (u : Updates) (owner_holds : bool) : Prop := {
  cons_owner :
    owner_at (committed u) (pending s) (calling u) owner_holds (data (shared s));
  cons_mutex :
    m_mutex (shared s) =
    if owner_holds then Some TOwner
    else if in_critical_section (pc (worker s)) then Some TWorker else None;
  cons_exclusive :
    owner_holds = true -> in_critical_section (pc (worker s)) = false;
  cons_loaded :
    forall d, pc (worker s) = L93w d -> d = committed u
}.

(** Where Scenario D leaves the two threads, and the state after the
    worker's next action, the read of [data]. *)
Definition scenario_D_end : System :=
  {| worker := goto just_synced L93;
     pending := [];
     alive := true;
     shared := {| m_mutex := Some TWorker;
                  data := Whole [x01; x02; x03];
                  m_quit := false |} |}.

Definition scenario_D_next : System :=
  {| worker := goto just_synced (L93w [x01; x02; x03]);
     pending := [];
     alive := true;
     shared := {| m_mutex := Some TWorker;
                  data := Whole [x01; x02; x03];
                  m_quit := false |} |}.

(** Scenario B: the device does not answer the probe of step 2 on the first
    pass and answers every probe on the second. *)
Definition scenario_B : list Action :=
  [SetPortName "COM3"; SetBaudRate 19200; Open true;
   Emit (message (tr "Serial port opened"));
   Emit (message (tr "Synchronizing hardware"));
   LoadQuit false;
   Clear; Write [x55]; WaitForReadyRead 100 true; Read 128 1 (buffer [xaa]);
   Emit (message (tr "Handshake stage 1 complete"));
   Clear; Write [x41]; WaitForReadyRead 100 false;
   Emit (timeout (tr "Handshake failed at stage 2, retrying..."));
   LoadQuit false;
   Clear; Write [x55]; WaitForReadyRead 100 true; Read 128 1 (buffer [xaa]);
   Emit (message (tr "Handshake stage 1 complete"));
   Clear; Write [x41]; WaitForReadyRead 100 true; Read 128 1 (buffer [x06]);
   Emit (message (tr "Handshake stage 2 complete"));
   Clear; Write [x0d]; WaitForReadyRead 100 true; Read 128 1 (buffer [x0a]);
   Emit (message (tr "Handshake stage 3 complete"));
   LoadQuit false;
   Emit (message (tr "Synced successfully"))].

(** ** Further readings of the runs *)

(** The text of the open failure (lines 59-60). *)
Definition cant_open (portName : string) (code : Z) : QString :=
  argn (arg (tr "Can't open %1, error code %2") portName) code.

(** The actions of a call of [writeAndExpectResponse] that got [numRead]
    bytes into [readBuf]. *)
Definition answered (send : byte) (numRead : Z) (readBuf : list byte) : list Action :=
  [Clear; Write [send]; WaitForReadyRead 100 true; Read 128 numRead readBuf].

(** A pass of the handshake loop in which each probe is answered
    according to [reply]: [reply k] is what [read] returned at stage [k]. *)
Definition answered_pass (sync_bytes : nat -> byte)
    (reply : Stage -> Z * list byte) : list Action :=
  LoadQuit false ::
  answered (sync_bytes (index Stage1)) (fst (reply Stage1)) (snd (reply Stage1)) ++
  Emit (message (stage_complete Stage1)) ::
  answered (sync_bytes (index Stage2)) (fst (reply Stage2)) (snd (reply Stage2)) ++
  Emit (message (stage_complete Stage2)) ::
  answered (sync_bytes (index Stage3)) (fst (reply Stage3)) (snd (reply Stage3)) ++
  [Emit (message (stage_complete Stage3))].

(** The signals of a run, in order. *)
Fixpoint signals (t : list Action) : list Signal :=
  match t with
  | [] => []
  | Emit s :: t' => s :: signals t'
  | _ :: t' => signals t'
  end.

(** ** What a receiver of the signals can rely on *)

(** The states of a receiver that follows the worker by its signals alone. *)
Inductive Observer : Type :=
| OStart     (* nothing received *)
| OOpened    (* Serial port opened *)
| OPass      (* in the handshake, no stage of the pass complete *)
| OStage1    (* stage 1 of the pass complete *)
| OStage2    (* stage 2 of the pass complete *)
| OStage3    (* stage 3 complete *)
| OWriting   (* Synced successfully *)
| OFailed.   (* an error *)

Definition text_is (q : QString) (s : string) : bool :=
  if QString_eq_dec q (tr s) then true else false.

(** The signal [s] received in state [o]: the next state, or [None] when
    the worker never sends [s] there. *)
Definition hears (o : Observer) (s : Signal) : option Observer :=
  match o, s with
  | OStart, error (tr t) =>
      if string_dec t "No port name specified" then Some OFailed else None
  | OStart, error (argn (arg (tr t) _) _) =>
      if string_dec t "Can't open %1, error code %2" then Some OFailed else None
  | OStart, message q =>
      if text_is q "Serial port opened" then Some OOpened else None
  | OOpened, message q =>
      if text_is q "Synchronizing hardware" then Some OPass else None
  | OPass, message q =>
      if text_is q "Handshake stage 1 complete" then Some OStage1
      else if text_is q "Synced successfully" then Some OWriting
      else None
  | OStage1, message q =>
      if text_is q "Handshake stage 2 complete" then Some OStage2 else None
  | OStage1, timeout q =>
      if text_is q "Handshake failed at stage 2, retrying..." then Some OPass else None
  | OStage2, message q =>
      if text_is q "Handshake stage 3 complete" then Some OStage3 else None
  | OStage2, timeout q =>
      if text_is q "Handshake failed at stage 3, retrying..." then Some OPass else None
  | OStage3, message q =>
      if text_is q "Synced successfully" then Some OWriting else None
  | OWriting, writeComplete => Some OWriting
  | OWriting, timeout (arg (tr t) _) =>
      if string_dec t "Wait read response timeout %1" then Some OWriting else None
  | _, _ => None
  end.

Fixpoint hears_all (o : Observer) (l : list Signal) : option Observer :=
  match l with
  | [] => Some o
  | s :: l' =>
      match hears o s with
      | Some o' => hears_all o' l'
      | None => None
      end
  end.

(** The receiver's state that goes with a state of the worker. *)
Definition tracks (w : Worker) (o : Observer) : bool :=
  match pc w, o with
  | (L52 | L57 | L58 | L59 | L59e _ | L63), OStart => true
  | L64, OOpened => true
  | L68, OPass => true
  | L68, OStage3 => synced w
  | (LCall Stage1 _ | LOk Stage1), OPass => true
  | (LCall Stage2 _ | LOk Stage2 | LFail Stage2), OStage1 => true
  | (LCall Stage3 _ | LOk Stage3 | LFail Stage3), OStage2 => true
  | L89, (OPass | OStage3) => true
  | (L91 | L92 | L93 | L93w _ | L94 | L95 | L96 | L96e _ | L98 | L99 | L103), OWriting => true
  | Done, (OFailed | OWriting) => true
  | _, _ => false
  end.

(** The program points at which the port is open. *)
Definition port_open (l : PC) : bool :=
  match l with
  | L52 | L57 | L58 | L59 | L59e _ | Done => false
  | _ => true
  end.

(** ** Stopping *)

Definition probe_rank (p : ProbePC) : nat :=
  match p with W37 => 4 | W38 => 3 | W39 => 2 | W42 => 1 end.

(** The most actions the worker can still perform from a program point when
    every read of the StopFlag finds it set. *)
Definition remaining (l : PC) : nat :=
  match l with
  | L52 => 9 | L57 => 8 | L58 => 7 | L59 => 2 | L59e _ => 1
  | L63 => 6 | L64 => 5
  | L68 => 4
  | LCall Stage1 p => 15 + probe_rank p
  | LOk Stage1 => 15
  | LCall Stage2 p => 10 + probe_rank p
  | LOk Stage2 => 10
  | LCall Stage3 p => 5 + probe_rank p
  | LOk Stage3 => 5
  | LFail _ => 5
  | L89 => 3
  | L91 => 2
  | L92 => 9 | L93 => 8 | L93w _ => 7 | L94 => 6 | L95 => 5
  | L96 => 4 | L96e _ => 3 | L98 => 4 | L99 => 3
  | L103 => 1
  | Done => 0
  end%nat.

(** The most timed waits among them. *)
Definition waits_left (l : PC) : nat :=
  match l with
  | LCall Stage1 (W37 | W38 | W39) => 3
  | LCall Stage1 W42 | LOk Stage1 | LCall Stage2 (W37 | W38 | W39) => 2
  | LCall Stage2 W42 | LOk Stage2 | LCall Stage3 (W37 | W38 | W39) => 1
  | L92 | L93 | L93w _ | L94 | L95 => 1
  | _ => 0
  end%nat.

Definition is_wait (a : Action) : bool :=
  match a with WaitForReadyRead _ _ => true | _ => false end.

(** No read of the StopFlag in [t] finds it clear. *)
Definition stop_seen (t : list Action) : Prop :=
  Forall (fun a => a <> LoadQuit false) t.

(** The scenarios' worker with [synced] set, at program point [l]. *)
Definition at_pc_synced (l : PC) : Worker :=
  {| m_portName := "COM3"; pc := l; synced := true |}.

(** The longest run after the StopFlag is set: through steps 1, 2 and 3,
    each probe answered. *)
Definition longest_stop : list Action :=
  answered x55 1 (buffer [xaa]) ++ [Emit (message (stage_complete Stage1))] ++
  answered x41 1 (buffer [x06]) ++ [Emit (message (stage_complete Stage2))] ++
  answered x0d 1 (buffer [x0a]) ++ [Emit (message (stage_complete Stage3))] ++
  [LoadQuit true; Emit (message (tr "Synced successfully")); LoadQuit true; Close].

(** The worker's actions in a schedule of the two threads. *)
Fixpoint worker_part (sched : list Event) : list Action :=
  match sched with
  | [] => []
  | WorkerDoes a :: r => a :: worker_part r
  | _ :: r => worker_part r
  end.

(** Scenario: during the write loop the owner destroys the worker, which
    finishes its cycle, finds the StopFlag set and closes the port; the
    owner's [wait] returns. *)
Definition scenario_stop_before : list Event :=
  map WorkerDoes scenario_A ++
  [WorkerDoes (LoadQuit false); WorkerDoes Lock;
   OwnerCalls Destructor;
   WorkerDoes (LoadData [x01; x02]); WorkerDoes (Write [x01; x02]);
   WorkerDoes Unlock;
   OwnerDoes Lock; OwnerDoes (StoreQuit true)].

Definition scenario_stop_after : list Event :=
  [WorkerDoes (WaitForReadyRead 40 false);
   OwnerDoes WakeOne; OwnerDoes Unlock;
   WorkerDoes (CurrentTime "12:00:00");
   WorkerDoes (Emit (timeout (arg (tr "Wait read response timeout %1") "12:00:00")));
   WorkerDoes (LoadQuit true); WorkerDoes Close;
   OwnerDoes Join].

Definition stop_flagged : System :=
  {| worker := goto just_synced L95;
     pending := [WakeOne; Unlock; Join];
     alive := false;
     shared := {| m_mutex := Some TOwner; data := Whole [x01; x02]; m_quit := true |} |}.

Definition all_returned : System :=
  {| worker := goto just_synced Done;
     pending := [];
     alive := false;
     shared := {| m_mutex := None; data := Whole [x01; x02]; m_quit := true |} |}.

(** ** Writing only after the handshake *)

(** The program points of the body of the write loop. *)
Definition writing (l : PC) : bool :=
  match l with
  | L92 | L93 | L93w _ | L94 | L95 | L96 | L96e _ | L98 | L99 => true
  | _ => false
  end.

(** In the body of the write loop [synced] is set; between the two loops
    it is set or the StopFlag, [quit], is. *)
Definition entitled (w : Worker) (quit : bool) : bool :=
  match pc w with
  | L89 | L91 => synced w || quit
  | l => if writing l then synced w else true
  end.

(** ** Neither thread waits for ever on the other *)

Definition worker_can_step (sync_bytes sync_resp : nat -> byte) (s : System) : Prop :=
  exists a s', sys_step sync_bytes sync_resp s (WorkerDoes a) = Some s'.

Definition owner_can_step (sync_bytes sync_resp : nat -> byte) (s : System) : Prop :=
  exists a s', sys_step sync_bytes sync_resp s (OwnerDoes a) = Some s'.

(** ** Destruction *)

(** Once the destructor is entered, it is either still to reach its
    [wait()] or has returned from it with [run] returned; and once it has
    stored the StopFlag, the flag is set. *)
Definition tearing_down (s : System) : Prop :=
  (alive s = false ->
   In Join (pending s) \/ (pending s = [] /\ pc (worker s) = Done)) /\
  (alive s = false -> ~ In (StoreQuit true) (pending s) ->
   m_quit (shared s) = true).

(** The calls that need the port open. *)
Definition port_io (a : Action) : bool :=
  match a with
  | Clear | Write _ | WaitForReadyRead _ _ | Read _ _ _ | ReadAll _ | Close => true
  | _ => false
  end.

(** * Theorems *)

(** ** Basic facts about the machines *)

Lemma expecting_Some {T : Type} (a wanted : Action) (next r : T) :
  expecting a wanted next = Some r -> a = wanted /\ r = next.
Proof.
  unfold expecting. destruct (Action_eq_dec a wanted); [|discriminate].
  intros E. injection E as <-. auto.
Qed.

Lemma expecting_refl {T : Type} (a : Action) (next : T) :
  expecting a a next = Some next.
Proof. unfold expecting. destruct (Action_eq_dec a a); congruence. Qed.

Lemma exec_app sb sr (w : Worker) (t1 t2 : list Action) :
  exec sb sr w (t1 ++ t2) =
  match exec sb sr w t1 with Some w' => exec sb sr w' t2 | None => None end.
Proof.
  revert w. induction t1 as [|a t1 IH]; intros w; simpl; [reflexivity|].
  destruct (step sb sr w a); auto.
Qed.

Lemma exec_snoc sb sr (w : Worker) (t : list Action) (a : Action) :
  exec sb sr w (t ++ [a]) =
  match exec sb sr w t with Some w' => step sb sr w' a | None => None end.
Proof.
  rewrite exec_app. destruct (exec sb sr w t) as [w'|]; [|reflexivity].
  simpl. destruct (step sb sr w' a); reflexivity.
Qed.





(** ** Inversion of a step *)

Ltac inv_step H :=
  unfold step in H;
  repeat match type of H with
    | expecting _ _ _ = Some _ => apply expecting_Some in H as [-> ->]
    | Some _ = Some _ => injection H as <-
    | None = Some _ => discriminate H
    | match pc ?w with _ => _ end = Some _ =>
        let E := fresh "Hpc" in destruct (pc w) eqn:E
    | (if ?c then _ else _) = Some _ =>
        let E := fresh "Hc" in destruct c eqn:E
    | match ?x with _ => _ end = Some _ =>
        let E := fresh "Hx" in destruct x eqn:E
    end.

Section Facts.

Variables sb sr : nat -> byte.

Lemma left_handshake_step (w w' : Worker) (a : Action) :
  left_handshake w = true -> step sb sr w a = Some w' ->
  left_handshake w' = true /\ handshaking (pc w') = false
  /\ probe_io a = false /\ step_note a = false.
Proof.
  unfold left_handshake. intros L H.
  inv_step H; simpl in *; try discriminate; try rewrite L;
    repeat match goal with
      | b : bool |- context [negb ?b'] => constr_eq b b'; destruct b; simpl
      end;
    auto.
Qed.

Lemma left_handshake_exec (w w' : Worker) (t : list Action) :
  left_handshake w = true -> exec sb sr w t = Some w' ->
  left_handshake w' = true
  /\ Forall (fun a => probe_io a = false /\ step_note a = false) t.
Proof.
  revert w. induction t as [|a t IH]; intros w L H; simpl in H.
  - injection H as <-. auto.
  - destruct (step sb sr w a) as [w1|] eqn:E; [|discriminate].
    destruct (left_handshake_step _ _ _ L E) as (L1 & _ & P & N).
    destruct (IH _ L1 H) as [L' F]. auto.
Qed.

Lemma left_not_handshaking (w : Worker) :
  left_handshake w = true -> handshaking (pc w) = false.
Proof. unfold left_handshake. destruct (pc w); simpl; auto; discriminate. Qed.

End Facts.

(** ** The handshake loop *)



(** The four calls [writeAndExpectResponse] makes. *)
Lemma call_actions send expect (p : ProbePC) (a : Action) (r : ProbePC + bool) :
  writeAndExpectResponse send expect p a = Some r ->
  a = Clear \/ a = Write [send] \/
  (exists ready, a = WaitForReadyRead 100 ready) \/
  (exists numRead readBuf, a = Read 128 numRead readBuf).
Proof.
  destruct p; simpl; intros H.
  - apply expecting_Some in H as [-> _]. auto.
  - apply expecting_Some in H as [-> _]. auto.
  - destruct a; try discriminate. destruct (msecs =? 100) eqn:E; [|discriminate].
    apply Z.eqb_eq in E. subst. right. right. left. eauto.
  - destruct a; try discriminate. destruct (maxSize =? 128) eqn:E; [|discriminate].
    apply Z.eqb_eq in E. subst. right. right. right. eauto.
Qed.




(** Line 89 is not guarded by [synced]: when the loop test finds the
    StopFlag set before the handshake has succeeded, the worker still emits
    Synced successfully before it closes the port. *)
Lemma stop_during_handshake_announces_synced sb sr (w : Worker) :
  pc w = L68 -> synced w = false ->
  exec sb sr w [LoadQuit true; Emit (message (tr "Synced successfully"));
                LoadQuit true; Close] = Some (goto w Done)
  /\ forall e w', step sb sr (goto w L89) e = Some w' ->
                  e = Emit (message (tr "Synced successfully")).
Proof.
  intros Hpc Hs. split.
  - cbn [exec]. unfold step at 1. rewrite Hpc. cbn [negb andb].
    cbn [exec]. unfold step at 1. cbn [pc goto]. rewrite expecting_refl.
    cbn [exec]. unfold step at 1. cbn [pc goto negb].
    cbn [exec]. unfold step at 1. cbn [pc goto]. rewrite expecting_refl.
    reflexivity.
  - intros e w' E. unfold step in E. cbn [pc goto] in E.
    apply expecting_Some in E as [-> _]. reflexivity.
Qed.

(** [C7] The worker is synced when step 3 has succeeded and [synced] is set.
    From then on, through every action it can perform, it stays out of the
    handshake: it is never again at a program point of a handshake step, it
    never clears the buffers for a probe nor reads a response to check, and
    it emits no step notification. *)
Theorem C7_never_back_to_handshake :
  forall (sb sr : nat -> byte) (w : Worker) (t : list Action) (w' : Worker),
    left_handshake w = true ->
    exec sb sr w t = Some w' ->
    left_handshake w' = true /\ handshaking (pc w') = false /\
    Forall (fun a => probe_io a = false /\ step_note a = false) t.
Proof.
  intros sb sr w t w' L E.
  destruct (left_handshake_exec sb sr w w' t L E) as [L' F].
  split; [exact L'|]. split; [apply left_not_handshaking; exact L' | exact F].
Qed.

(** Step 3 succeeding is what makes the worker synced. *)
Lemma step3_success_syncs sb sr (w w' : Worker) (a : Action) :
  pc w = LOk Stage3 -> step sb sr w a = Some w' ->
  a = Emit (message (stage_complete Stage3)) /\ left_handshake w' = true.
Proof.
  intros Hpc H. unfold step in H. rewrite Hpc in H.
  apply expecting_Some in H as [-> ->]. auto.
Qed.

(** From [synced = true] through the first pass of the write loop. *)
Lemma C7_synced_witness :
  left_handshake (goto just_synced L91) = true /\
  handshaking (pc (goto just_synced L91)) = false /\
  Forall (fun a => probe_io a = false /\ step_note a = false)
    (LoadQuit false :: Emit (message (tr "Synced successfully")) :: LoadQuit false
       :: cycle [x01; x02] true "12:00:00" [x06]).
Proof.
  apply (C7_never_back_to_handshake scenario_sync_bytes scenario_sync_resp
           just_synced _ (goto just_synced L91)); reflexivity.
Defined.

(** [C3] When the call of step 2 or step 3 returns false, the worker goes to
    the else branch of that step; the only thing it can do there is emit one
    timeout notification, whose text names the stage, and that brings it to
    the loop test.  From the loop test the handshake goes on at the first
    statement of step 1, sending the probe of step 1 (or, the StopFlag read
    set, the loop ends): it never goes on at step 2 or step 3. *)
Theorem C3_step23_failure_reports_once_and_restarts :
  forall (sb sr : nat -> byte) (w : Worker) (k : Stage) (p : ProbePC) (a : Action),
    pc w = LCall k p -> k <> Stage1 -> synced w = false ->
    writeAndExpectResponse (sb (index k)) (sr (index k)) p a = Some (inr false) ->
    step sb sr w a = Some (goto w (LFail k)) /\
    (forall e w2, step sb sr (goto w (LFail k)) e = Some w2 ->
                  e = Emit (timeout (stage_failed k)) /\ w2 = goto w L68) /\
    step sb sr (goto w (LFail k)) (Emit (timeout (stage_failed k))) = Some (goto w L68) /\
    (stage_failed Stage2 = tr "Handshake failed at stage 2, retrying..." /\
     stage_failed Stage3 = tr "Handshake failed at stage 3, retrying...") /\
    (forall e w3, step sb sr (goto w L68) e = Some w3 ->
        (e = LoadQuit false /\ w3 = goto w (LCall Stage1 W37)) \/
        (e = LoadQuit true /\ w3 = goto w L89)) /\
    exec sb sr (goto w L68) [LoadQuit false; Clear; Write [sb (index Stage1)]]
      = Some (goto w (LCall Stage1 W39)).
Proof.
  intros sb sr w k p a Hpc Hk Hs H.
  split; [|split; [|split; [|split; [|split]]]].
  - unfold step. rewrite Hpc, H. destruct k; [contradiction Hk|..]; reflexivity.
  - intros e w2 E. unfold step in E. simpl in E.
    apply expecting_Some in E as [-> ->]. auto.
  - unfold step. simpl. apply expecting_refl.
  - auto.
  - intros e w3 E. unfold step in E. simpl in E. rewrite Hs in E.
    destruct e; try discriminate. injection E as <-.
    destruct q; simpl; auto.
  - simpl. unfold step. simpl. rewrite Hs. simpl.
    rewrite !expecting_refl. reflexivity.
Qed.

(** Scenario B: no answer to the probe of step 2. *)
Lemma C3_stage2_witness :
  step scenario_sync_bytes scenario_sync_resp
    (at_pc (LCall Stage2 W39)) (WaitForReadyRead 100 false)
  = Some (at_pc (LFail Stage2)).
Proof.
  refine (proj1 (C3_step23_failure_reports_once_and_restarts
                   scenario_sync_bytes scenario_sync_resp
                   (at_pc (LCall Stage2 W39)) Stage2 W39
                   (WaitForReadyRead 100 false) eq_refl _ eq_refl eq_refl)).
  discriminate.
Defined.

(** One more action of an accepted trace. *)
Ltac exec_next H a t :=
  destruct t as [|a t];
  [| simpl exec in H;
     let E := fresh "E" in
     match type of H with
     | match step ?sb ?sr ?w a with _ => _ end = Some _ =>
         destruct (step sb sr w a) eqn:E; [|discriminate H]
     end;
     unfold step in E; cbn [pc goto set_synced m_portName synced] in E;
     inv_step E ].




(** ** Set-up of the port *)

Section Setup.

Variables sb sr : nat -> byte.

Lemma configured_step (w w' : Worker) (a : Action) :
  configuring (pc w) = false -> step sb sr w a = Some w' ->
  configuring (pc w') = false /\ setup_io a = false.
Proof.
  intros C H.
  inv_step H; simpl in C; try discriminate C; simpl;
    repeat match goal with
      | |- context [if ?c then _ else _] => destruct c; simpl
      | |- context [match ?k with Stage1 => _ | _ => _ end] => destruct k; simpl
      end;
    auto.
  all: match goal with
       | Hx : writeAndExpectResponse _ _ _ _ = Some _ |- _ =>
           apply call_actions in Hx
             as [-> | [-> | [[? ->] | (? & ? & ->)]]]; auto
       end.
Qed.

Lemma configured_exec (w w' : Worker) (t : list Action) :
  configuring (pc w) = false -> exec sb sr w t = Some w' ->
  Forall (fun a => setup_io a = false) t.
Proof.
  revert w. induction t as [|a t IH]; intros w C H; simpl in H; [constructor|].
  destruct (step sb sr w a) as [w1|] eqn:E; [|discriminate].
  destruct (configured_step _ _ _ C E) as [C1 S].
  constructor; [exact S | exact (IH _ C1 H)].
Qed.

(** The runs of [run]: nothing yet, the error of an empty port name, or the
    set-up of the port followed by actions none of which sets up or opens
    the port again. *)
Lemma run_shape (name : string) (t : list Action) (w : Worker) :
  exec sb sr (start name) t = Some w ->
  t = [] \/
  (isEmpty name = true /\ t = [Emit (error (tr "No port name specified"))]) \/
  (isEmpty name = false /\
   exists r, Forall (fun a => setup_io a = false) r /\
     (t = [SetPortName name] \/ t = [SetPortName name; SetBaudRate 19200] \/
      exists ok, t = SetPortName name :: SetBaudRate 19200 :: Open ok :: r)).
Proof.
  intros H.
  destruct t as [|a1 t]; [left; reflexivity | right].
  simpl exec in H.
  destruct (step sb sr (start name) a1) as [w1|] eqn:E1; [|discriminate H].
  unfold step in E1. cbn [pc start m_portName] in E1.
  fold (start name) in E1.
  destruct (isEmpty name) eqn:Hn.
  - left. apply expecting_Some in E1 as [-> ->]. split; [reflexivity|].
    destruct t as [|a2 t]; [reflexivity|]. simpl in H. discriminate H.
  - right. apply expecting_Some in E1 as [-> ->]. split; [reflexivity|].
    exec_next H a2 t; [exists []; auto|].
    exec_next H a3 t; [exists []; auto|].
    exists t. split; [|right; right; exists ok; reflexivity].
    apply (configured_exec _ w t) in H; [exact H|].
    destruct ok; reflexivity.
Qed.

End Setup.

(** [C5] With an empty port name the worker emits the error notification
    No port name specified and is done; nothing else is a behaviour of
    [run]: its runs hold that one notification at most, and in particular
    no call that names, configures or opens the port. *)
Theorem C5_empty_port_name_one_error_no_open :
  forall (sb sr : nat -> byte),
    exec sb sr (start EmptyString) [Emit (error (tr "No port name specified"))]
      = Some (goto (start EmptyString) Done) /\
    (forall a, step sb sr (goto (start EmptyString) Done) a = None) /\
    (forall t w, exec sb sr (start EmptyString) t = Some w ->
       (t = [] \/ t = [Emit (error (tr "No port name specified"))]) /\
       Forall (fun a => setup_io a = false) t).
Proof.
  intros sb sr. split; [reflexivity|]. split; [reflexivity|].
  intros t w H.
  apply run_shape in H as [-> | [[_ ->] | [C _]]].
  - split; [left; reflexivity | constructor].
  - split; [right; reflexivity | repeat constructor].
  - discriminate C.
Qed.

(** [C10] In every run, whatever the port name, a call of [open] comes
    directly after [setBaudRate(19200)], itself directly after
    [setPortName]; and 19200 is the only rate ever set. *)
Theorem C10_baud_19200_before_open :
  forall (sb sr : nat -> byte) (name : string) (t : list Action) (w : Worker),
    exec sb sr (start name) t = Some w ->
    (forall t1 ok t2, t = t1 ++ Open ok :: t2 ->
                      t1 = [SetPortName name; SetBaudRate 19200]) /\
    (forall b, In (SetBaudRate b) t -> b = 19200).
Proof.
  intros sb sr name t w H.
  apply run_shape in H
    as [-> | [[_ ->] | (_ & r & F & [-> | [-> | [ok' ->]]])]].
  - split; [intros [|? ?] ? ? E; discriminate E | intros b []].
  - split.
    + intros [|x [|? ?]] ? ? E; discriminate E.
    + intros b [E|[]]. discriminate E.
  - split.
    + intros [|x [|? ?]] ? ? E; discriminate E.
    + intros b [E|[]]. discriminate E.
  - split.
    + intros [|x [|y [|? ?]]] ? ? E; discriminate E.
    + intros b [E|[E|[]]]; [discriminate E | congruence].
  - assert (N : forall a, In a r -> setup_io a = false)
      by (apply Forall_forall; exact F).
    split.
    + intros [|x [|y [|z t1]]] ok t2 E; try discriminate E.
      * injection E as -> -> _ _. reflexivity.
      * injection E as _ _ _ E.
        specialize (N (Open ok)). rewrite E in N.
        discriminate N. apply in_elt.
    + intros b [E|[E|[E|E]]]; try discriminate E; [congruence|].
      apply N in E. discriminate E.
Qed.

(** The run up to the probe of step 2. *)
Lemma C10_baud_witness :
  (forall t1 ok t2, stage1_then_probe2 = t1 ++ Open ok :: t2 ->
                    t1 = [SetPortName "COM3"; SetBaudRate 19200]) /\
  (forall b, In (SetBaudRate b) stage1_then_probe2 -> b = 19200).
Proof.
  apply (C10_baud_19200_before_open scenario_sync_bytes scenario_sync_resp
           "COM3" stage1_then_probe2 (at_pc (LCall Stage2 W39))).
  reflexivity.
Defined.

(** ** The write loop *)

(** Perform the next action of a trace given in full. *)
Ltac run_step :=
  cbn [exec]; unfold step at 1;
  cbn [pc goto set_synced m_portName synced negb andb];
  try rewrite expecting_refl; try rewrite Z.eqb_refl.



(** ** The lock *)

(** What a step of the worker means for the lock: it takes it from outside
    the critical section, inside it only reads [data], hands the bytes to
    [write] and unlocks, and does none of the owner's actions. *)
Lemma step_and_lock sb sr (w w' : Worker) (a : Action) :
  step sb sr w a = Some w' ->
  policy_of_the_code (in_critical_section (pc w)) a = true /\
  in_critical_section (pc w') = holds_after (in_critical_section (pc w)) a /\
  (forall d, pc w' = L93w d -> a = LoadData d).
Proof.
  intros H.
  inv_step H; cbn [pc goto set_synced in_critical_section holds_after policy_of_the_code negb];
    repeat match goal with
      | |- context [if ?c then _ else _] => destruct c; cbn [pc goto in_critical_section]
      | |- context [match ?k with Stage1 => _ | _ => _ end] =>
          destruct k; cbn [pc goto in_critical_section]
      end;
    try (repeat split; try reflexivity; intros; congruence).
  all: match goal with
       | Hx : writeAndExpectResponse _ _ _ _ = Some _ |- _ =>
           apply call_actions in Hx
             as [-> | [-> | [[? ->] | (? & ? & ->)]]]
       end;
    repeat split; try reflexivity; intros; congruence.
Qed.

Lemma worker_respects sb sr (w w' : Worker) (t : list Action) :
  exec sb sr w t = Some w' ->
  respects policy_of_the_code (in_critical_section (pc w)) t = true.
Proof.
  revert w. induction t as [|a t IH]; intros w H; [reflexivity|].
  simpl in H. destruct (step sb sr w a) as [w1|] eqn:E; [|discriminate].
  destruct (step_and_lock _ _ _ _ _ E) as (P & N & _).
  cbn [respects]. rewrite P, <- N. exact (IH _ H).
Qed.

(** [C9], as stated, fails: the worker reads the StopFlag at its loop test
    without holding the lock. *)
Lemma C9_counterexample_stopflag_read_unlocked :
  exec scenario_sync_bytes scenario_sync_resp (start "COM3") up_to_first_check
    = Some (at_pc (LCall Stage1 W37))
  /\ respects policy_all_under_lock false up_to_first_check = false
  /\ ~ lock_discipline policy_all_under_lock
         scenario_sync_bytes scenario_sync_resp "COM3".
Proof.
  assert (E : exec scenario_sync_bytes scenario_sync_resp (start "COM3")
                up_to_first_check = Some (at_pc (LCall Stage1 W37)))
    by reflexivity.
  split; [exact E|]. split; [reflexivity|].
  intros [C _]. specialize (C _ _ E). discriminate C.
Qed.

(** [C9], amended: every read and store of the Payload and the store of the
    StopFlag are made under the lock, the worker's reads of the StopFlag
    are made without it, and the lock is held only over the reading of the
    payload with its hand-over to the port's queueing [write], and over the
    owner's store and wake-up: never over a blocking call.  This holds of
    every run of the worker and of both methods of the owner. *)
Theorem C9_lock_discipline_of_the_code :
  forall (sb sr : nat -> byte) (portName : string),
    lock_discipline policy_of_the_code sb sr portName /\
    (forall held a, policy_of_the_code held a = true ->
        (blocking a = true -> held = false) /\
        (shared_access a = true ->
         match a with LoadQuit _ => held = false | _ => held = true end)).
Proof.
  intros sb sr portName. split.
  - split; [|split].
    + intros t w H. exact (worker_respects sb sr (start portName) w t H).
    + intros newData. reflexivity.
    + reflexivity.
  - intros held a P. split.
    + destruct a; try discriminate; destruct held; try discriminate; reflexivity.
    + destruct a; try discriminate; destruct held; try discriminate; reflexivity.
Qed.

(** ** Scenarios of the specification, run on the model *)

Example scenario_A_syncs :
  exec scenario_sync_bytes scenario_sync_resp (start "COM3") scenario_A
    = Some (goto just_synced L91)
  /\ filter reports scenario_A = [].
Proof. split; vm_compute; reflexivity. Qed.

Example scenario_B_reports_stage2_once :
  exec scenario_sync_bytes scenario_sync_resp (start "COM3") scenario_B
    = Some (goto just_synced L91)
  /\ filter reports scenario_B
     = [Emit (timeout (tr "Handshake failed at stage 2, retrying..."))].
Proof. split; vm_compute; reflexivity. Qed.

Example scenario_D_runs :
  sys_exec scenario_sync_bytes scenario_sync_resp (boot "COM3" [x01; x02]) scenario_D
    = Some scenario_D_end
  /\ last_update [x01; x02] scenario_D = [x01; x02; x03].
Proof. split; vm_compute; reflexivity. Qed.

(** ** The two threads together *)

(** What the lock is for: read in the middle of an assignment, [data] can
    yield a mixture of the old and the new payload. *)
Example torn_read_without_lock :
  access TWorker (LoadData [x01; x02; x00])
    {| m_mutex := None; data := Torn [x01; x02] [x01; x02; x03]; m_quit := false |}
  <> None.
Proof. discriminate. Qed.

Section TogetherFacts.

Variables sb sr : nat -> byte.

Lemma worker_never_owner_only (w w' : Worker) (a : Action) :
  step sb sr w a = Some w' -> owner_only a = false.
Proof.
  intros H. inv_step H; try reflexivity.
  all: match goal with
       | Hx : writeAndExpectResponse _ _ _ _ = Some _ |- _ =>
           apply call_actions in Hx
             as [-> | [-> | [[? ->] | (? & ? & ->)]]]; reflexivity
       end.
Qed.

Lemma consistent_worker_step (s s' : System) (u : Updates) (oh : bool) (a : Action) :
  consistent s u oh ->
  sys_step sb sr s (WorkerDoes a) = Some s' ->
  consistent s' (note u (WorkerDoes a)) oh.
Proof.
  intros [O M X L] H. cbn [sys_step] in H.
  destruct (step sb sr (worker s) a) as [w'|] eqn:E; [|discriminate H].
  destruct (access TWorker a (shared s)) as [m'|] eqn:A; [|discriminate H].
  injection H as <-. cbn [note].
  destruct (step_and_lock _ _ _ _ _ E) as (P & N & Ld).
  pose proof (worker_never_owner_only _ _ _ E) as NO.
  destruct a; try discriminate NO; cbn [access] in A;
    cbn [policy_of_the_code holds_after] in P, N.
  all: try (injection A as <-;
            constructor; cbn [worker pending shared];
            [ exact O
            | rewrite N; exact M
            | rewrite N; exact X
            | intros d Hd; specialize (Ld d Hd); discriminate Ld ]).
  - (* Lock *)
    destruct (m_mutex (shared s)) eqn:Mx; [discriminate A|]. injection A as <-.
    destruct oh; [discriminate M|].
    constructor; cbn [worker pending shared m_mutex data].
    + exact O.
    + rewrite N. reflexivity.
    + discriminate.
    + intros d Hd. specialize (Ld d Hd). discriminate Ld.
  - (* Unlock *)
    destruct oh; [rewrite (X eq_refl) in P; discriminate P|].
    rewrite P in M. rewrite M in A. simpl in A. injection A as <-.
    constructor; cbn [worker pending shared m_mutex data].
    + exact O.
    + rewrite N. reflexivity.
    + discriminate.
    + intros d Hd. specialize (Ld d Hd). discriminate Ld.
  - (* LoadQuit *)
    destruct (Bool.eqb q (m_quit (shared s))); [|discriminate A]. injection A as <-.
    constructor; cbn [worker pending shared];
      [ exact O | rewrite N; exact M | rewrite N; exact X
      | intros d Hd; specialize (Ld d Hd); discriminate Ld ].
  - (* LoadData *)
    destruct oh; [rewrite (X eq_refl) in P; discriminate P|].
    assert (C : data (shared s) = Whole (committed u)).
    { inversion O; reflexivity. }
    rewrite C in A.
    destruct (list_eq_dec byte_eq_dec d (committed u)) as [->|]; [|discriminate A].
    injection A as <-.
    constructor; cbn [worker pending shared];
      [ exact O | rewrite N; exact M | rewrite N; exact X |].
    intros d Hd. specialize (Ld d Hd). congruence.
Qed.

Lemma consistent_owner_call (s s' : System) (u : Updates) (oh : bool) (m : Method) :
  consistent s u oh ->
  sys_step sb sr s (OwnerCalls m) = Some s' ->
  consistent s' (note u (OwnerCalls m)) oh.
Proof.
  destruct s as [w p al [mx dt q]], u as [c k].
  intros [O M X L] H. cbn [sys_step pending worker shared alive] in H.
  cbn [pending worker shared committed calling data m_mutex] in O, M, X, L.
  destruct p; [|discriminate H].
  destruct al; [|discriminate H]. injection H as <-.
  inversion O; subst.
  destruct m as [d|]; constructor;
    cbn [worker pending shared note committed calling body data m_mutex];
    try assumption; constructor.
Qed.

Lemma consistent_owner_step (s s' : System) (u : Updates) (oh : bool) (a : Action) :
  consistent s u oh ->
  sys_step sb sr s (OwnerDoes a) = Some s' ->
  exists oh', consistent s' (note u (OwnerDoes a)) oh'.
Proof.
  destruct s as [w p al [mx dt q]], u as [c k].
  intros [O M X L] H. cbn [sys_step pending worker shared alive] in H.
  cbn [pending worker shared committed calling data m_mutex] in O, M, X, L.
  destruct p as [|a' rest]; [discriminate H|].
  destruct (Action_eq_dec a a') as [->|]; [|discriminate H].
  inversion O; subst; cbn [access m_mutex data m_quit] in H;
    cbn [note committed calling].
  - (* changeData: lock *)
    destruct (in_critical_section (pc w)) eqn:I; [discriminate H|].
    injection H as <-. exists true.
    constructor; cbn [worker pending shared committed calling data m_mutex];
      [constructor | reflexivity | auto | exact L].
  - (* changeData: the store begins *)
    injection H as <-. exists true.
    constructor; cbn [worker pending shared committed calling data m_mutex];
      [constructor | reflexivity | exact X | exact L].
  - (* changeData: the store ends *)
    injection H as <-. exists true.
    constructor; cbn [worker pending shared committed calling data m_mutex];
      [constructor | reflexivity | exact X | exact L].
  - (* changeData: wake *)
    injection H as <-. exists true.
    constructor; cbn [worker pending shared committed calling data m_mutex];
      [constructor | reflexivity | exact X | exact L].
  - (* changeData: unlock and return *)
    destruct (Thread_eq_dec TOwner TOwner) as [_|N]; [|contradiction N; reflexivity].
    injection H as <-. exists false.
    pose proof (X eq_refl) as I.
    constructor; cbn [worker pending shared committed calling data m_mutex].
    + constructor.
    + rewrite I. reflexivity.
    + discriminate.
    + intros d' Hd'. rewrite Hd' in I. discriminate I.
  - (* destructor: lock *)
    destruct (in_critical_section (pc w)) eqn:I; [discriminate H|].
    injection H as <-. exists true.
    constructor; cbn [worker pending shared committed calling data m_mutex];
      [constructor | reflexivity | auto | exact L].
  - (* destructor: m_quit = true *)
    injection H as <-. exists true.
    constructor; cbn [worker pending shared committed calling data m_mutex];
      [constructor | reflexivity | exact X | exact L].
  - (* destructor: wake *)
    injection H as <-. exists true.
    constructor; cbn [worker pending shared committed calling data m_mutex];
      [constructor | reflexivity | exact X | exact L].
  - (* destructor: unlock *)
    destruct (Thread_eq_dec TOwner TOwner) as [_|N]; [|contradiction N; reflexivity].
    injection H as <-. exists false.
    pose proof (X eq_refl) as I.
    constructor; cbn [worker pending shared committed calling data m_mutex].
    + constructor.
    + rewrite I. reflexivity.
    + discriminate.
    + exact L.
  - (* destructor: wait *)
    destruct (pc w) eqn:Hpc; try discriminate H.
    injection H as <-. exists false.
    constructor; cbn [worker pending shared committed calling data m_mutex].
    + constructor.
    + rewrite Hpc. reflexivity.
    + discriminate.
    + rewrite Hpc. discriminate.
Qed.

Lemma consistent_step (s s' : System) (u : Updates) (oh : bool) (e : Event) :
  consistent s u oh ->
  sys_step sb sr s e = Some s' ->
  exists oh', consistent s' (note u e) oh'.
Proof.
  intros C H. destruct e as [a|m|a].
  - exists oh. exact (consistent_worker_step s s' u oh a C H).
  - exists oh. exact (consistent_owner_call s s' u oh m C H).
  - exact (consistent_owner_step s s' u oh a C H).
Qed.

Lemma consistent_exec (sched : list Event) :
  forall (s s' : System) (u : Updates) (oh : bool),
    consistent s u oh ->
    sys_exec sb sr s sched = Some s' ->
    exists oh', consistent s' (fold_left note sched u) oh'.
Proof.
  induction sched as [|e sched IH]; intros s s' u oh C H; simpl in H.
  - injection H as <-. exists oh. exact C.
  - destruct (sys_step sb sr s e) as [s1|] eqn:E; [|discriminate H].
    destruct (consistent_step s s1 u oh e C E) as [oh1 C1].
    exact (IH s1 s' (note u e) oh1 C1 H).
Qed.

Lemma consistent_boot (portName : string) (data0 : list byte) :
  consistent (boot portName data0) {| committed := data0; calling := None |} false.
Proof. constructor; simpl; [constructor | reflexivity | discriminate | discriminate]. Qed.

End TogetherFacts.

(** [C8] However the actions of the worker and of the owner interleave,
    whenever the worker reads [data] for the write of line 93 the field is
    whole, never in the middle of an assignment, and holds the argument of
    the last call of [changeData] that has returned (the constructor's
    payload if none has); the bytes the worker then hands to [write] are
    these.  So an update that has returned is what the next pass of the
    write loop sends, unless a later update has replaced it; and while an
    assignment is in progress the worker is outside its critical
    section. *)
Theorem C8_payload_update_visible_and_whole :
  forall (sb sr : nat -> byte) (portName : string) (data0 : list byte)
         (sched : list Event) (s : System),
    sys_exec sb sr (boot portName data0) sched = Some s ->
    (forall d s', sys_step sb sr s (WorkerDoes (LoadData d)) = Some s' ->
        data (shared s) = Whole d /\ d = last_update data0 sched) /\
    (forall d, pc (worker s) = L93w d ->
        d = last_update data0 sched /\
        forall a s', sys_step sb sr s (WorkerDoes a) = Some s' -> a = Write d) /\
    (forall old new, data (shared s) = Torn old new ->
        in_critical_section (pc (worker s)) = false).
Proof.
  intros sb sr portName data0 sched s H.
  destruct (consistent_exec sb sr sched _ _ _ _ (consistent_boot portName data0) H)
    as [oh [O M X L]].
  fold (last_update data0 sched) in O, L.
  split; [|split].
  - intros d s' E. cbn [sys_step] in E.
    destruct (step sb sr (worker s) (LoadData d)) as [w'|] eqn:Ew; [|discriminate E].
    destruct (access TWorker (LoadData d) (shared s)) as [m'|] eqn:A; [|discriminate E].
    destruct (step_and_lock _ _ _ _ _ Ew) as (P & _ & _).
    cbn [policy_of_the_code] in P.
    destruct oh; [rewrite (X eq_refl) in P; discriminate P|].
    assert (C : data (shared s) = Whole (last_update data0 sched)).
    { unfold last_update. inversion O; reflexivity. }
    cbn [access] in A. rewrite C in A.
    destruct (list_eq_dec byte_eq_dec d (last_update data0 sched)) as [->|];
      [|discriminate A].
    split; [exact C | reflexivity].
  - intros d Hd. split; [exact (L d Hd)|].
    intros a s' E. cbn [sys_step] in E.
    destruct (step sb sr (worker s) a) as [w'|] eqn:Ew; [|discriminate E].
    unfold step in Ew. rewrite Hd in Ew.
    apply expecting_Some in Ew as [-> _]. reflexivity.
  - intros old new T.
    inversion O as [ | | | d Hp Hc Hh Hd | | | | | | | ];
      try (rewrite T in *; discriminate).
    apply X. symmetry. assumption.
Qed.

(** Scenario D: the pass after the update reads the new payload. *)
Lemma C8_scenario_D_witness :
  data (shared scenario_D_end) = Whole [x01; x02; x03] /\
  [x01; x02; x03] = last_update [x01; x02] scenario_D.
Proof.
  assert (E : sys_exec scenario_sync_bytes scenario_sync_resp
                (boot "COM3" [x01; x02]) scenario_D = Some scenario_D_end)
    by (vm_compute; reflexivity).
  assert (N : sys_step scenario_sync_bytes scenario_sync_resp scenario_D_end
                (WorkerDoes (LoadData [x01; x02; x03])) = Some scenario_D_next)
    by (vm_compute; reflexivity).
  exact (proj1 (C8_payload_update_visible_and_whole
                  scenario_sync_bytes scenario_sync_resp "COM3" [x01; x02]
                  scenario_D scenario_D_end E)
           [x01; x02; x03] scenario_D_next N).
Defined.

(** * Further properties of the code *)

(** ** The open failure (lines 58-62) *)

(** [X1] A run in which [open] fails is the set-up of the port, the failed
    [open], the query of the error code and one error notification that
    carries the port name and the code; with it [run] has returned.  Such a
    run has no other notification, no probe, no write and no [close]. *)
Theorem X1_open_failure_reports_once_and_returns :
  forall (sb sr : nat -> byte) (name : string) (t : list Action) (w : Worker),
    exec sb sr (start name) t = Some w ->
    In (Open false) t ->
    exists code,
      prefix t [SetPortName name; SetBaudRate 19200; Open false;
                GetError code; Emit (error (cant_open name code))] /\
      exec sb sr (start name)
        [SetPortName name; SetBaudRate 19200; Open false;
         GetError code; Emit (error (cant_open name code))]
      = Some (goto (start name) Done).
Proof.
  intros sb sr name t w H I.
  destruct (run_shape sb sr name t w H)
    as [-> | [[_ ->] | (Hn & r & F & [-> | [-> | [ok ->]]])]].
  - destruct I.
  - destruct I as [E|[]]; discriminate E.
  - destruct I as [E|[]]; discriminate E.
  - destruct I as [E|[E|[]]]; discriminate E.
  - assert (ok = false) as ->.
    { destruct I as [E|[E|[E|I]]]; try discriminate E.
      - injection E as ->. reflexivity.
      - rewrite Forall_forall in F. apply F in I. discriminate I. }
    assert (S3 : exec sb sr (start name) [SetPortName name; SetBaudRate 19200; Open false]
                 = Some (goto (start name) L59)).
    { cbn [exec]. unfold step at 1. cbn [pc start m_portName]. rewrite Hn.
      rewrite expecting_refl. repeat run_step. reflexivity. }
    change (SetPortName name :: SetBaudRate 19200 :: Open false :: r)
      with ([SetPortName name; SetBaudRate 19200; Open false] ++ r) in H.
    rewrite exec_app, S3 in H.
    assert (D : forall code,
               exec sb sr (start name)
                 [SetPortName name; SetBaudRate 19200; Open false;
                  GetError code; Emit (error (cant_open name code))]
               = Some (goto (start name) Done)).
    { intros code.
      change [SetPortName name; SetBaudRate 19200; Open false;
              GetError code; Emit (error (cant_open name code))]
        with ([SetPortName name; SetBaudRate 19200; Open false] ++
              [GetError code; Emit (error (cant_open name code))]).
      rewrite exec_app, S3. unfold cant_open. repeat run_step. reflexivity. }
    exec_next H a1 r.
    { exists 0. split; [eexists; reflexivity | apply D]. }
    exec_next H a2 r.
    { exists code. split; [eexists; reflexivity | apply D]. }
    destruct r as [|a3 r]; [|discriminate H].
    exists code. split; [exists []; reflexivity | apply D].
Qed.

(** Scenario: the device cannot be opened, error code 1. *)
Lemma X1_open_failure_witness :
  exists code,
    prefix [SetPortName "COM3"; SetBaudRate 19200; Open false; GetError 1]
           [SetPortName "COM3"; SetBaudRate 19200; Open false;
            GetError code; Emit (error (cant_open "COM3" code))] /\
    exec scenario_sync_bytes scenario_sync_resp (start "COM3")
      [SetPortName "COM3"; SetBaudRate 19200; Open false;
       GetError code; Emit (error (cant_open "COM3" code))]
    = Some (goto (start "COM3") Done).
Proof.
  apply (X1_open_failure_reports_once_and_returns
           scenario_sync_bytes scenario_sync_resp "COM3"
           [SetPortName "COM3"; SetBaudRate 19200; Open false; GetError 1]
           (at_pc (L59e 1))).
  - vm_compute. reflexivity.
  - simpl. auto.
Defined.

(** ** A pass of the handshake loop (lines 68-88) *)

Lemma answered_call sb sr (w : Worker) (k : Stage) (n : Z) (buf : list byte)
    (t : list Action) :
  read_result 128 n buf = true ->
  exec sb sr (goto w (LCall k W37)) (answered (sb (index k)) n buf ++ t)
  = exec sb sr
      (if expectation n buf (sr (index k)) then goto w (LOk k)
       else match k with Stage1 => goto w L68 | _ => goto w (LFail k) end)
      t.
Proof.
  intros R. unfold answered. cbn [app].
  do 3 (cbn [exec]; unfold step at 1;
        cbn [pc goto writeAndExpectResponse];
        try rewrite expecting_refl; try rewrite Z.eqb_refl; cbn [negb]).
  cbn [exec]. unfold step at 1. cbn [pc goto writeAndExpectResponse].
  rewrite R, Z.eqb_refl. cbn [andb].
  destruct (expectation n buf (sr (index k))); cbn [negb]; destruct k; reflexivity.
Qed.

(** [X2] When, in one pass of the handshake loop entered with the StopFlag
    clear, each of the three probes is answered by bytes whose last one is
    the stage's expected byte, the worker emits the three stage-complete
    messages, in order and nothing else, and sets [synced]; the loop test
    that follows ends the loop whatever the StopFlag then holds, and
    Synced successfully is emitted. *)
Theorem X2_three_answers_sync :
  forall (sb sr : nat -> byte) (w : Worker) (reply : Stage -> Z * list byte) (q : bool),
    pc w = L68 -> synced w = false ->
    (forall k, read_result 128 (fst (reply k)) (snd (reply k)) = true /\
               expectation (fst (reply k)) (snd (reply k)) (sr (index k)) = true) ->
    exec sb sr w (answered_pass sb reply) = Some (goto (set_synced w true) L68) /\
    signals (answered_pass sb reply)
    = [message (tr "Handshake stage 1 complete");
       message (tr "Handshake stage 2 complete");
       message (tr "Handshake stage 3 complete")] /\
    exec sb sr (goto (set_synced w true) L68)
      [LoadQuit q; Emit (message (tr "Synced successfully"))]
    = Some (goto (set_synced w true) L91).
Proof.
  intros sb sr w reply q Hpc Hs R.
  destruct (R Stage1) as [R1 E1], (R Stage2) as [R2 E2], (R Stage3) as [R3 E3].
  split; [|split].
  - unfold answered_pass.
    cbn [exec]. unfold step at 1. rewrite Hpc, Hs. cbn [negb andb].
    rewrite (answered_call sb sr w Stage1 _ _ _ R1), E1.
    run_step.
    rewrite (answered_call sb sr w Stage2 _ _ _ R2), E2.
    run_step.
    rewrite (answered_call sb sr w Stage3 _ _ _ R3), E3.
    run_step. reflexivity.
  - reflexivity.
  - repeat run_step. destruct q; reflexivity.
Qed.

(** Scenario A, each answer preceded by two stray bytes. *)
Lemma X2_three_answers_witness :
  exec scenario_sync_bytes scenario_sync_resp (at_pc L68)
    (answered_pass scenario_sync_bytes
       (fun k => (3, buffer [x00; x17; scenario_sync_resp (index k)])))
  = Some (goto (set_synced (at_pc L68) true) L68).
Proof.
  refine (proj1 (X2_three_answers_sync scenario_sync_bytes scenario_sync_resp
                   (at_pc L68)
                   (fun k => (3, buffer [x00; x17; scenario_sync_resp (index k)]))
                   false eq_refl eq_refl _)).
  intros k. destruct k; split; vm_compute; reflexivity.
Defined.

(** ** The order of the signals (lines 49-104) *)

Lemma tracks_step sb sr (w w' : Worker) (o : Observer) (a : Action) :
  tracks w o = true -> step sb sr w a = Some w' ->
  exists o',
    match a with Emit s => hears o s = Some o' | _ => o' = o end /\
    tracks w' o' = true.
Proof.
  intros T H. unfold tracks in T.
  inv_step H; try rewrite Hpc in T; destruct o; try discriminate T;
    try (match goal with
         | Hx : writeAndExpectResponse _ _ _ _ = Some _ |- _ =>
             apply call_actions in Hx
               as [-> | [-> | [[? ->] | (? & ? & ->)]]]
         end);
    try (match goal with k : Stage |- _ => destruct k; try discriminate T end);
    eexists; (split; [reflexivity|]);
    unfold tracks; cbn [pc goto set_synced synced];
    repeat match goal with
      | |- context [if ?c then _ else _] => destruct c eqn:?; cbn [pc goto set_synced synced]
      end;
    try reflexivity; try assumption.
  (* the loop test with [synced] set never enters a pass *)
  rewrite T in *. destruct q; discriminate.
Qed.

Lemma tracks_exec sb sr (t : list Action) :
  forall (w w' : Worker) (o : Observer),
    tracks w o = true -> exec sb sr w t = Some w' ->
    exists o', hears_all o (signals t) = Some o' /\ tracks w' o' = true.
Proof.
  induction t as [|a t IH]; intros w w' o T H; simpl in H.
  - injection H as <-. exists o. auto.
  - destruct (step sb sr w a) as [w1|] eqn:E; [|discriminate H].
    destruct (tracks_step sb sr w w1 o a T E) as (o1 & Ha & T1).
    destruct (IH w1 w' o1 T1 H) as (o' & Hh & T').
    exists o'. split; [|exact T'].
    destruct a; cbn [signals hears_all]; try (subst o1; exact Hh).
    rewrite Ha. exact Hh.
Qed.

(** [X3] The signals of every run are a word of the receiver's automaton
    [hears]: an error alone, or Serial port opened, Synchronizing hardware,
    then passes of the handshake (stage 1 complete, then stage 2 complete
    or its failure, then stage 3 complete or its failure, a failure
    starting a new pass), then Synced successfully, then only writeComplete
    and write timeouts.  A stage-complete message never comes without the
    one of the stage before in the same pass; when [run] has returned, the
    last signal was an error or the worker had announced the sync. *)
Theorem X3_signals_follow_the_protocol :
  forall (sb sr : nat -> byte) (name : string) (t : list Action) (w : Worker),
    exec sb sr (start name) t = Some w ->
    exists o,
      hears_all OStart (signals t) = Some o /\
      tracks w o = true /\
      (pc w = Done -> o = OFailed \/ o = OWriting).
Proof.
  intros sb sr name t w H.
  destruct (tracks_exec sb sr t (start name) w OStart eq_refl H) as (o & Hh & T).
  exists o. split; [exact Hh|]. split; [exact T|].
  intros D. unfold tracks in T. rewrite D in T.
  destruct o; try discriminate T; auto.
Qed.

(** Scenario B heard by the receiver. *)
Lemma X3_signals_witness :
  exists o,
    hears_all OStart (signals scenario_B) = Some o /\
    tracks (goto just_synced L91) o = true /\
    (pc (goto just_synced L91) = Done -> o = OFailed \/ o = OWriting).
Proof.
  apply (X3_signals_follow_the_protocol scenario_sync_bytes scenario_sync_resp
           "COM3" scenario_B (goto just_synced L91)).
  vm_compute. reflexivity.
Defined.


(** ** The port is closed when [run] returns (lines 58-63, 103) *)

Section Closing.

Variables sb sr : nat -> byte.

(** With the port open, [close] is the one action that ends [run]. *)
Lemma port_open_step (w w' : Worker) (a : Action) :
  port_open (pc w) = true -> step sb sr w a = Some w' ->
  (port_open (pc w') = true /\ a <> Close) \/ (pc w' = Done /\ a = Close).
Proof.
  intros P H.
  inv_step H; simpl in P; try discriminate P;
    try (match goal with
         | Hx : writeAndExpectResponse _ _ _ _ = Some _ |- _ =>
             apply call_actions in Hx
               as [-> | [-> | [[? ->] | (? & ? & ->)]]]
         end);
    cbn [pc goto set_synced];
    repeat match goal with
      | |- context [if ?c then _ else _] => destruct c; cbn [pc goto]
      | |- context [match ?k with Stage1 => _ | _ => _ end] => destruct k; cbn [pc goto]
      end;
    try (left; split; [reflexivity | discriminate]).
  right. auto.
Qed.

(** The port gets open by a successful [open] only. *)
Lemma port_opened_by (w w' : Worker) (a : Action) :
  step sb sr w a = Some w' -> port_open (pc w') = true ->
  port_open (pc w) = true \/ a = Open true.
Proof.
  intros H P.
  inv_step H; cbn [pc goto set_synced port_open] in *; auto; try discriminate P.
  destruct ok; [auto | discriminate P].
Qed.

Lemma port_open_exec (t : list Action) :
  forall (w w' : Worker),
    port_open (pc w) = true -> exec sb sr w t = Some w' ->
    (port_open (pc w') = true /\ ~ In Close t) \/
    (pc w' = Done /\ exists t1, t = t1 ++ [Close] /\ ~ In Close t1).
Proof.
  induction t as [|a t IH]; intros w w' P H; simpl in H.
  - injection H as <-. left. auto.
  - destruct (step sb sr w a) as [w1|] eqn:E; [|discriminate H].
    destruct (port_open_step w w1 a P E) as [[P1 Na] | [D ->]].
    + destruct (IH w1 w' P1 H) as [[P' N] | (D & t1 & -> & N)].
      * left. split; [exact P'|]. intros [C|C]; [exact (Na C) | exact (N C)].
      * right. split; [exact D|]. exists (a :: t1). split; [reflexivity|].
        intros [C|C]; [exact (Na C) | exact (N C)].
    + destruct t as [|b t].
      * injection H as <-. right. split; [exact D|]. exists []. auto.
      * simpl in H. unfold step in H. rewrite D in H. discriminate H.
Qed.

Lemma port_open_since (t : list Action) :
  forall (w w' : Worker),
    exec sb sr w t = Some w' -> port_open (pc w') = true ->
    port_open (pc w) = true \/ In (Open true) t.
Proof.
  induction t as [|a t IH]; intros w w' H P; simpl in H.
  - injection H as <-. auto.
  - destruct (step sb sr w a) as [w1|] eqn:E; [|discriminate H].
    destruct (IH w1 w' H P) as [P1 | I]; [|right; right; exact I].
    destruct (port_opened_by w w1 a E P1) as [P0 | ->]; [auto | right; left; reflexivity].
Qed.

Lemma close_needs_open (w w' : Worker) :
  step sb sr w Close = Some w' -> port_open (pc w) = true.
Proof.
  remember Close as a eqn:Ea. intros H.
  inv_step H; try discriminate Ea; try reflexivity.
  all: match goal with
       | Hx : writeAndExpectResponse _ _ _ _ = Some _ |- _ =>
           apply call_actions in Hx as [C | [C | [[? C] | (? & ? & C)]]];
           rewrite C in Ea; discriminate Ea
       end.
Qed.

Lemma open_opens (w w' : Worker) :
  step sb sr w (Open true) = Some w' -> port_open (pc w') = true.
Proof.
  remember (Open true) as a eqn:Ea. intros H.
  inv_step H; try discriminate Ea; try reflexivity.
  - injection Ea as ->. reflexivity.
  - apply call_actions in Hx as [C | [C | [[? C] | (? & ? & C)]]];
      rewrite C in Ea; discriminate Ea.
Qed.

(** A run that has opened the port and returned ends with [close]. *)
Lemma returned_after_open (name : string) (t : list Action) (w : Worker) :
  exec sb sr (start name) t = Some w -> pc w = Done -> In (Open true) t ->
  exists t1, t = t1 ++ [Close].
Proof.
  intros H D I.
  apply in_split in I as (u1 & u2 & ->).
  rewrite exec_app in H.
  destruct (exec sb sr (start name) u1) as [v1|] eqn:Eu; [|discriminate H].
  simpl in H. destruct (step sb sr v1 (Open true)) as [v2|] eqn:Ev; [|discriminate H].
  assert (Pv : port_open (pc v2) = true).
  { exact (open_opens v1 v2 Ev). }
  destruct (port_open_exec u2 v2 w Pv H) as [[P _] | (_ & t1 & -> & _)].
  - rewrite D in P. discriminate P.
  - exists (u1 ++ Open true :: t1). rewrite <- app_assoc. reflexivity.
Qed.

End Closing.

(** [X4] In every run [close] is called at most once, as the last action,
    with which [run] returns, and only on a port that [open] has opened;
    and a run that has opened the port and returned ends with [close]. *)
Theorem X4_port_closed_once_on_return :
  forall (sb sr : nat -> byte) (name : string) (t : list Action) (w : Worker),
    exec sb sr (start name) t = Some w ->
    (forall t1 t2, t = t1 ++ Close :: t2 ->
       t2 = [] /\ pc w = Done /\ In (Open true) t1 /\ ~ In Close t1) /\
    (pc w = Done -> In (Open true) t -> exists t1, t = t1 ++ [Close]).
Proof.
  intros sb sr name t w H. split.
  - intros t1 t2 ->. rewrite exec_app in H.
    destruct (exec sb sr (start name) t1) as [w1|] eqn:E1; [|discriminate H].
    simpl in H. destruct (step sb sr w1 Close) as [w2|] eqn:E2; [|discriminate H].
    assert (P1 : port_open (pc w1) = true).
    { exact (close_needs_open sb sr w1 w2 E2). }
    destruct (port_open_step sb sr w1 w2 Close P1 E2) as [[_ N] | [D _]];
      [contradiction N; reflexivity|].
    destruct t2 as [|b t2];
      [|simpl in H; unfold step in H; rewrite D in H; discriminate H].
    injection H as <-.
    split; [reflexivity|]. split; [exact D|].
    destruct (port_open_since sb sr t1 (start name) w1 E1 P1) as [P0 | I];
      [discriminate P0|].
    split; [exact I|].
    intros C. apply in_split in C as (u1 & u2 & ->).
    rewrite exec_app in E1.
    destruct (exec sb sr (start name) u1) as [v1|] eqn:Eu; [|discriminate E1].
    simpl in E1. destruct (step sb sr v1 Close) as [v2|] eqn:Ev; [|discriminate E1].
    assert (Pv : port_open (pc v1) = true).
    { exact (close_needs_open sb sr v1 v2 Ev). }
    destruct (port_open_step sb sr v1 v2 Close Pv Ev) as [[_ N] | [Dv _]];
      [contradiction N; reflexivity|].
    destruct u2 as [|b u2].
    + injection E1 as <-. rewrite Dv in P1. discriminate P1.
    + simpl in E1. unfold step in E1. rewrite Dv in E1. discriminate E1.
  - intros D I. exact (returned_after_open sb sr name t w H D I).
Qed.

(** Scenario A, then the StopFlag read set at the test of the write loop. *)
Lemma X4_port_closed_witness :
  (forall t1 t2, scenario_A ++ [LoadQuit true; Close] = t1 ++ Close :: t2 ->
     t2 = [] /\ pc (goto just_synced Done) = Done /\
     In (Open true) t1 /\ ~ In Close t1) /\
  (pc (goto just_synced Done) = Done ->
   In (Open true) (scenario_A ++ [LoadQuit true; Close]) ->
   exists t1, scenario_A ++ [LoadQuit true; Close] = t1 ++ [Close]).
Proof.
  apply (X4_port_closed_once_on_return scenario_sync_bytes scenario_sync_resp "COM3").
  vm_compute. reflexivity.
Defined.

(** ** Stopping (lines 68, 91, 103) *)

Section Stopping.

Variables sb sr : nat -> byte.

Lemma probe_progress send expect (p : ProbePC) (a : Action) (r : ProbePC + bool) :
  writeAndExpectResponse send expect p a = Some r ->
  a <> LoadQuit false /\
  match r with
  | inl p' => probe_rank p = S (probe_rank p') /\ (is_wait a = true -> p = W39)
  | inr _ => (p = W39 /\ is_wait a = true) \/ (p = W42 /\ is_wait a = false)
  end.
Proof.
  destruct p; simpl; intros H.
  - apply expecting_Some in H as [-> ->]. split; [discriminate|]. split; [reflexivity | discriminate].
  - apply expecting_Some in H as [-> ->]. split; [discriminate|]. split; [reflexivity | discriminate].
  - destruct a; try discriminate H. destruct (msecs =? 100); [|discriminate H].
    injection H as <-. split; [discriminate|].
    destruct ready; simpl; auto.
  - destruct a; try discriminate H. destruct (_ && _); [|discriminate H].
    injection H as <-. split; [discriminate|]. auto.
Qed.

Lemma stop_step (w w' : Worker) (a : Action) :
  step sb sr w a = Some w' -> a <> LoadQuit false ->
  (S (remaining (pc w')) <= remaining (pc w))%nat /\
  ((if is_wait a then 1 else 0) + waits_left (pc w') <= waits_left (pc w))%nat.
Proof.
  intros H N. unfold step in H.
  destruct (pc w) eqn:Hpc;
    try (inv_step H;
         try (match goal with q : bool |- _ =>
                destruct q; [|contradiction N; reflexivity] end);
         cbn [pc goto set_synced negb andb is_wait];
         repeat match goal with
           | |- context [if negb ?c then _ else _] => destruct c; cbn [negb pc goto]
           | k : Stage |- _ => destruct k
           end;
         cbn [remaining waits_left probe_rank pc goto is_wait]; split; lia).
  (* inside a call *)
  destruct (writeAndExpectResponse (sb (index k)) (sr (index k)) p a)
    as [[p'|ok]|] eqn:Hx; [| |discriminate H].
  - apply probe_progress in Hx as (_ & R & W). injection H as <-.
    cbn [pc goto].
    destruct (is_wait a).
    + rewrite (W eq_refl) in *. destruct p'; try discriminate R.
      destruct k; simpl; lia.
    + destruct k, p, p'; simpl in R; try discriminate R; simpl; lia.
  - apply probe_progress in Hx as (_ & [[-> W] | [-> W]]); rewrite W;
      destruct ok, k; injection H as <-; simpl; lia.
Qed.

Lemma stop_exec (t : list Action) :
  forall (w w' : Worker),
    exec sb sr w t = Some w' -> stop_seen t ->
    (List.length t + remaining (pc w') <= remaining (pc w))%nat /\
    (List.length (filter is_wait t) + waits_left (pc w') <= waits_left (pc w))%nat.
Proof.
  induction t as [|a t IH]; intros w w' H F; simpl in H.
  - injection H as <-. simpl. lia.
  - destruct (step sb sr w a) as [w1|] eqn:E; [|discriminate H].
    inversion F as [|? ? Na Ft]; subst.
    destruct (stop_step w w1 a E Na) as [R W].
    destruct (IH w1 w' H Ft) as [R' W'].
    split; [simpl; lia|].
    simpl. destruct (is_wait a); simpl in *; lia.
Qed.

(** The worker is never stuck before [run] returns: some action is a
    behaviour of the code, and it is not a read that finds the StopFlag
    clear. *)
Lemma stop_progress (w : Worker) :
  pc w <> Done -> exists a w', step sb sr w a = Some w' /\ a <> LoadQuit false.
Proof.
  intros N. unfold step.
  destruct (pc w) eqn:Hpc; try (contradiction N; reflexivity).
  - destruct (isEmpty (m_portName w));
      eexists; eexists; (split; [apply expecting_refl | discriminate]).
  - eexists; eexists; (split; [apply expecting_refl | discriminate]).
  - exists (Open true). eexists. split; [reflexivity | discriminate].
  - exists (GetError 0). eexists. split; [reflexivity | discriminate].
  - eexists; eexists; (split; [apply expecting_refl | discriminate]).
  - eexists; eexists; (split; [apply expecting_refl | discriminate]).
  - eexists; eexists; (split; [apply expecting_refl | discriminate]).
  - exists (LoadQuit true). eexists. split; [reflexivity | discriminate].
  - destruct p.
    + exists Clear. eexists. cbn [writeAndExpectResponse].
      rewrite expecting_refl. split; [reflexivity | discriminate].
    + exists (Write [sb (index k)]). eexists. cbn [writeAndExpectResponse].
      rewrite expecting_refl. split; [reflexivity | discriminate].
    + exists (WaitForReadyRead 100 true). eexists. cbn [writeAndExpectResponse].
      rewrite Z.eqb_refl. cbn [negb]. split; [reflexivity | discriminate].
    + exists (Read 128 (-1) (buffer [])). cbn [writeAndExpectResponse].
      change ((128 =? 128) && read_result 128 (-1) (buffer [])) with true.
      change (expectation (-1) (buffer []) (sr (index k))) with false.
      cbn [negb]. destruct k; eexists; (split; [reflexivity | discriminate]).
  - eexists; eexists; (split; [apply expecting_refl | discriminate]).
  - eexists; eexists; (split; [apply expecting_refl | discriminate]).
  - eexists; eexists; (split; [apply expecting_refl | discriminate]).
  - exists (LoadQuit true). eexists. split; [reflexivity | discriminate].
  - eexists; eexists; (split; [apply expecting_refl | discriminate]).
  - exists (LoadData []). eexists. split; [reflexivity | discriminate].
  - eexists; eexists; (split; [apply expecting_refl | discriminate]).
  - eexists; eexists; (split; [apply expecting_refl | discriminate]).
  - exists (WaitForReadyRead 40 true). eexists. rewrite Z.eqb_refl.
    split; [reflexivity | discriminate].
  - exists (CurrentTime EmptyString). eexists. split; [reflexivity | discriminate].
  - eexists; eexists; (split; [apply expecting_refl | discriminate]).
  - exists (ReadAll []). eexists. split; [reflexivity | discriminate].
  - eexists; eexists; (split; [apply expecting_refl | discriminate]).
  - eexists; eexists; (split; [apply expecting_refl | discriminate]).
Qed.

End Stopping.

(** [X5] Once every read of the StopFlag finds it set, [run] returns after
    at most 19 more actions, at most 3 of them timed waits, from whatever
    program point: the worker finishes the handshake pass it is in (the
    flag is not read between the steps) or the write cycle it is in, and
    closes the port.  Until it has returned it always has a next action,
    and the bound of 19 is reached. *)
Theorem X5_stop_ends_run_within_19_actions :
  forall (sb sr : nat -> byte) (w : Worker),
    (forall t w', exec sb sr w t = Some w' -> stop_seen t ->
       (List.length t + remaining (pc w') <= remaining (pc w))%nat /\
       (List.length t <= 19)%nat /\
       (List.length (filter is_wait t) <= 3)%nat) /\
    (pc w <> Done ->
     exists a w', step sb sr w a = Some w' /\ a <> LoadQuit false) /\
    (remaining (pc w) = 0%nat -> pc w = Done) /\
    (exec scenario_sync_bytes scenario_sync_resp (at_pc (LCall Stage1 W37)) longest_stop
       = Some (at_pc_synced Done) /\
     stop_seen longest_stop /\
     List.length longest_stop = 19%nat /\
     List.length (filter is_wait longest_stop) = 3%nat).
Proof.
  intros sb sr w. split; [|split; [|split]].
  - intros t w' H F.
    destruct (stop_exec sb sr t w w' H F) as [R W].
    split; [exact R|].
    assert (remaining (pc w) <= 19)%nat
      by (destruct (pc w) as [| | | | | | | |[] []|[]|[]| | | | | | | | | | | | |];
          simpl; lia).
    assert (waits_left (pc w) <= 3)%nat
      by (destruct (pc w) as [| | | | | | | |[] []|[]|[]| | | | | | | | | | | | |];
          simpl; lia).
    lia.
  - apply stop_progress.
  - destruct (pc w) as [| | | | | | | |[] []|[]|[]| | | | | | | | | | | | |];
      simpl; try discriminate; reflexivity.
  - split; [vm_compute; reflexivity|].
    split; [repeat constructor; discriminate|].
    split; reflexivity.
Qed.

(** ** Stopping, the two threads together (lines 21-27, 68, 91) *)

Section StoppingTogether.

Variables sb sr : nat -> byte.

(** The StopFlag is only ever stored as true. *)
Lemma quit_kept (s s' : System) (u : Updates) (oh : bool) (e : Event) :
  consistent s u oh -> sys_step sb sr s e = Some s' ->
  m_quit (shared s) = true -> m_quit (shared s') = true.
Proof.
  intros [O _ _ _] H Q. destruct e as [a|m|a]; cbn [sys_step] in H.
  - destruct (step sb sr (worker s) a) as [w'|] eqn:E; [|discriminate H].
    destruct (access TWorker a (shared s)) as [m'|] eqn:A; [|discriminate H].
    injection H as <-. cbn [shared].
    pose proof (worker_never_owner_only sb sr _ _ _ E) as NO.
    destruct a; try discriminate NO; cbn [access] in A;
      repeat match type of A with
        | match ?x with _ => _ end = Some _ => destruct x; try discriminate A
        | (if ?c then _ else _) = Some _ => destruct c; try discriminate A
        end;
      injection A as <-; exact Q.
  - destruct (pending s); [|discriminate H].
    destruct (alive s); [|discriminate H]. injection H as <-. exact Q.
  - destruct s as [w p al [mx dt q]].
    cbn [shared m_quit pending worker alive data m_mutex] in *.
    destruct p as [|a' rest]; [discriminate H|].
    destruct (Action_eq_dec a a') as [->|]; [|discriminate H].
    inversion O; subst; cbn [access m_mutex data m_quit] in H;
      try (destruct mx as [[|]|]; try discriminate H; cbn in H);
      try (destruct (pc w); try discriminate H);
      injection H as <-; reflexivity.
Qed.

(** A read of the StopFlag returns what the field holds. *)
Lemma quit_read (s s' : System) (q : bool) :
  sys_step sb sr s (WorkerDoes (LoadQuit q)) = Some s' -> q = m_quit (shared s).
Proof.
  cbn [sys_step]. destruct (step sb sr (worker s) (LoadQuit q)); [|discriminate].
  cbn [access]. destruct (Bool.eqb q (m_quit (shared s))) eqn:E; [|discriminate].
  intros _. apply Bool.eqb_prop. exact E.
Qed.

Lemma stop_together (sched : list Event) :
  forall (s s' : System) (u : Updates) (oh : bool),
    consistent s u oh -> m_quit (shared s) = true ->
    sys_exec sb sr s sched = Some s' ->
    m_quit (shared s') = true /\
    exec sb sr (worker s) (worker_part sched) = Some (worker s') /\
    stop_seen (worker_part sched).
Proof.
  induction sched as [|e sched IH]; intros s s' u oh C Q H; simpl in H.
  - injection H as <-. split; [exact Q|]. split; [reflexivity | constructor].
  - destruct (sys_step sb sr s e) as [s1|] eqn:E; [|discriminate H].
    pose proof (quit_kept s s1 u oh e C E Q) as Q1.
    destruct (consistent_step sb sr s s1 u oh e C E) as [oh1 C1].
    destruct (IH s1 s' (note u e) oh1 C1 Q1 H) as (Q' & X & F).
    split; [exact Q'|].
    destruct e as [a|m|a]; cbn [worker_part].
    + assert (W : step sb sr (worker s) a = Some (worker s1)).
      { cbn [sys_step] in E.
        destruct (step sb sr (worker s) a) as [w'|]; [|discriminate E].
        destruct (access TWorker a (shared s)); [|discriminate E].
        injection E as <-. reflexivity. }
      split; [simpl; rewrite W; exact X|].
      constructor; [|exact F].
      intros ->. apply quit_read in E. rewrite Q in E. discriminate E.
    + assert (W : worker s1 = worker s).
      { cbn [sys_step] in E. destruct (pending s); [|discriminate E].
        destruct (alive s); [|discriminate E]. injection E as <-. reflexivity. }
      rewrite <- W. auto.
    + assert (W : worker s1 = worker s).
      { cbn [sys_step] in E. destruct (pending s) as [|a' r]; [discriminate E|].
        destruct (Action_eq_dec a a'); [|discriminate E].
        destruct a; destruct (pc (worker s));
          try (destruct (access TOwner _ (shared s)); [|discriminate E]);
          try discriminate E; injection E as <-; reflexivity. }
      rewrite <- W. auto.
Qed.

End StoppingTogether.

(** [X6] The StopFlag, once set, is never cleared; and once it is set, the
    worker performs at most 19 more actions, at most 3 of them timed waits,
    however the two threads interleave, before [run] has returned. *)
Theorem X6_stop_request_is_final_and_bounded :
  forall (sb sr : nat -> byte) (portName : string) (data0 : list byte)
         (before after : list Event) (s1 s2 : System),
    sys_exec sb sr (boot portName data0) before = Some s1 ->
    m_quit (shared s1) = true ->
    sys_exec sb sr s1 after = Some s2 ->
    m_quit (shared s2) = true /\
    (List.length (worker_part after) + remaining (pc (worker s2))
     <= remaining (pc (worker s1)))%nat /\
    (List.length (worker_part after) <= 19)%nat /\
    (List.length (filter is_wait (worker_part after)) <= 3)%nat.
Proof.
  intros sb sr portName data0 before after s1 s2 H1 Q H2.
  destruct (consistent_exec sb sr before _ _ _ _ (consistent_boot portName data0) H1)
    as [oh C].
  destruct (stop_together sb sr after s1 s2 _ oh C Q H2) as (Q' & X & F).
  destruct (stop_exec sb sr _ _ _ X F) as [R W].
  split; [exact Q'|]. split; [exact R|].
  assert (remaining (pc (worker s1)) <= 19)%nat
    by (destruct (pc (worker s1)) as [| | | | | | | |[] []|[]|[]| | | | | | | | | | | | |];
        simpl; lia).
  assert (waits_left (pc (worker s1)) <= 3)%nat
    by (destruct (pc (worker s1)) as [| | | | | | | |[] []|[]|[]| | | | | | | | | | | | |];
        simpl; lia).
  lia.
Qed.

(** The owner destroys the worker during a write cycle. *)
Lemma X6_stop_witness :
  m_quit (shared all_returned) = true /\
  (List.length (worker_part scenario_stop_after) + remaining (pc (worker all_returned))
   <= remaining (pc (worker stop_flagged)))%nat /\
  (List.length (worker_part scenario_stop_after) <= 19)%nat /\
  (List.length (filter is_wait (worker_part scenario_stop_after)) <= 3)%nat.
Proof.
  apply (X6_stop_request_is_final_and_bounded
           scenario_sync_bytes scenario_sync_resp "COM3" [x01; x02]
           scenario_stop_before scenario_stop_after stop_flagged all_returned).
  - vm_compute. reflexivity.
  - reflexivity.
  - vm_compute. reflexivity.
Defined.

(** ** No payload before the handshake has succeeded (lines 66-94) *)

Section Entitled.

Variables sb sr : nat -> byte.

Lemma entitled_step (w w' : Worker) (a : Action) (quit : bool) :
  entitled w quit = true -> step sb sr w a = Some w' ->
  (forall q, a = LoadQuit q -> q = quit) ->
  entitled w' quit = true.
Proof.
  unfold entitled. intros T H Q.
  inv_step H; cbn [writing] in T;
    try (match goal with q : bool |- _ =>
           let E := fresh in
           assert (E : q = quit) by (apply Q; reflexivity); subst q end);
    cbn [pc goto set_synced synced writing];
    repeat match goal with
      | |- context [if negb ?c then _ else _] => destruct c eqn:?; cbn [negb andb pc goto writing synced]
      | |- context [match ?k with Stage1 => _ | _ => _ end] => destruct k; cbn [pc goto writing synced]
      | |- context [if ?c then _ else _] => destruct c eqn:?; cbn [negb andb pc goto writing synced]
      end;
    try reflexivity; try assumption;
    repeat match goal with
      | Hb : _ && _ = _ |- _ => apply andb_false_iff in Hb as [Hb|Hb]
      | Hb : negb _ = false |- _ => apply negb_false_iff in Hb
      | Hb : _ || _ = true |- _ => apply orb_true_iff in Hb as [Hb|Hb]
      end;
    try (rewrite T; reflexivity);
    try congruence;
    try (match goal with Hb : ?x = true |- ?x || _ = true => rewrite Hb; reflexivity end);
    try (match goal with Hb : ?x = true |- _ || ?x = true => rewrite Hb; apply orb_true_r end).
Qed.

Lemma entitled_mono (w : Worker) (quit quit' : bool) :
  entitled w quit = true -> (quit = true -> quit' = true) ->
  entitled w quit' = true.
Proof.
  unfold entitled. intros T M.
  destruct (pc w); cbn [writing] in *; try exact T;
    apply orb_true_iff in T as [T|T];
    [rewrite T; reflexivity | rewrite (M T); apply orb_true_r
    |rewrite T; reflexivity | rewrite (M T); apply orb_true_r].
Qed.

(** [synced] is set by the message of stage 3 and by nothing else. *)
Lemma synced_by (w w' : Worker) (a : Action) :
  step sb sr w a = Some w' -> synced w' = true ->
  synced w = true \/ a = Emit (message (stage_complete Stage3)).
Proof.
  intros H S.
  inv_step H; cbn [pc goto set_synced synced] in S;
    repeat match type of S with
      | synced (if ?c then _ else _) = true => destruct c; cbn [goto synced] in S
      | synced (match ?k with Stage1 => _ | _ => _ end) = true =>
          destruct k; cbn [goto set_synced synced] in S
      end;
    auto; discriminate S.
Qed.

Lemma synced_since (t : list Action) :
  forall (w w' : Worker),
    exec sb sr w t = Some w' -> synced w' = true ->
    synced w = true \/ In (Emit (message (stage_complete Stage3))) t.
Proof.
  induction t as [|a t IH]; intros w w' H S; simpl in H.
  - injection H as <-. auto.
  - destruct (step sb sr w a) as [w1|] eqn:E; [|discriminate H].
    destruct (IH w1 w' H S) as [S1 | I]; [|right; right; exact I].
    destruct (synced_by w w1 a E S1) as [S0 | ->]; [auto | right; left; reflexivity].
Qed.

(** The worker's side of a schedule is a run of the worker. *)
Lemma worker_side (sched : list Event) :
  forall (s s' : System),
    sys_exec sb sr s sched = Some s' ->
    exec sb sr (worker s) (worker_part sched) = Some (worker s').
Proof.
  induction sched as [|e sched IH]; intros s s' H; simpl in H.
  - injection H as <-. reflexivity.
  - destruct (sys_step sb sr s e) as [s1|] eqn:E; [|discriminate H].
    specialize (IH s1 s' H).
    destruct e as [a|m|a]; cbn [worker_part]; cbn [sys_step] in E.
    + destruct (step sb sr (worker s) a) as [w'|] eqn:W; [|discriminate E].
      destruct (access TWorker a (shared s)); [|discriminate E].
      injection E as <-. simpl. rewrite W. exact IH.
    + destruct (pending s); [|discriminate E].
      destruct (alive s); [|discriminate E]. injection E as <-. exact IH.
    + destruct (pending s) as [|a' r]; [discriminate E|].
      destruct (Action_eq_dec a a'); [|discriminate E].
      destruct a; destruct (pc (worker s));
        try (destruct (access TOwner _ (shared s)); [|discriminate E]);
        try discriminate E; injection E as <-; exact IH.
Qed.

(** The worker does not touch the StopFlag. *)
Lemma worker_keeps_quit (s s' : System) (a : Action) :
  sys_step sb sr s (WorkerDoes a) = Some s' ->
  m_quit (shared s') = m_quit (shared s).
Proof.
  cbn [sys_step]. intros H.
  destruct (step sb sr (worker s) a) as [w'|] eqn:E; [|discriminate H].
  destruct (access TWorker a (shared s)) as [m'|] eqn:A; [|discriminate H].
  injection H as <-. cbn [shared].
  pose proof (worker_never_owner_only sb sr _ _ _ E) as NO.
  destruct a; try discriminate NO; cbn [access] in A;
    repeat match type of A with
      | match ?x with _ => _ end = Some _ => destruct x; try discriminate A
      | (if ?c then _ else _) = Some _ => destruct c; try discriminate A
      end;
    injection A as <-; reflexivity.
Qed.

Lemma entitled_sys_step (s s' : System) (u : Updates) (oh : bool) (e : Event) :
  consistent s u oh -> sys_step sb sr s e = Some s' ->
  entitled (worker s) (m_quit (shared s)) = true ->
  entitled (worker s') (m_quit (shared s')) = true.
Proof.
  intros C H T. destruct e as [a|m|a].
  - rewrite (worker_keeps_quit s s' a H).
    assert (W : step sb sr (worker s) a = Some (worker s')).
    { pose proof (worker_side [WorkerDoes a] s s') as P.
      cbn [sys_exec worker_part exec] in P.
      rewrite H in P. specialize (P eq_refl).
      destruct (step sb sr (worker s) a); [|discriminate P]. exact P. }
    apply (entitled_step _ _ a _ T W).
    intros q ->. exact (quit_read sb sr s s' q H).
  - pose proof (worker_side [OwnerCalls m] s s') as P.
      cbn [sys_exec worker_part exec] in P.
    rewrite H in P. specialize (P eq_refl). injection P as <-.
    apply (entitled_mono _ _ _ T). intros Q. exact (quit_kept sb sr s s' u oh _ C H Q).
  - pose proof (worker_side [OwnerDoes a] s s') as P.
      cbn [sys_exec worker_part exec] in P.
    rewrite H in P. specialize (P eq_refl). injection P as <-.
    apply (entitled_mono _ _ _ T). intros Q. exact (quit_kept sb sr s s' u oh _ C H Q).
Qed.

Lemma entitled_sys_exec (sched : list Event) :
  forall (s s' : System) (u : Updates) (oh : bool),
    consistent s u oh -> sys_exec sb sr s sched = Some s' ->
    entitled (worker s) (m_quit (shared s)) = true ->
    entitled (worker s') (m_quit (shared s')) = true.
Proof.
  induction sched as [|e sched IH]; intros s s' u oh C H T; simpl in H.
  - injection H as <-. exact T.
  - destruct (sys_step sb sr s e) as [s1|] eqn:E; [|discriminate H].
    destruct (consistent_step sb sr s s1 u oh e C E) as [oh1 C1].
    exact (IH s1 s' _ oh1 C1 H (entitled_sys_step s s1 u oh e C E T)).
Qed.

End Entitled.

(** [X7] However the two threads interleave, the worker is in the body of
    the write loop, and so writes the payload to the port, only with
    [synced] set, that is after it has emitted Handshake stage 3 complete:
    a StopFlag set during the handshake ends [run] without a write of the
    payload. *)
Theorem X7_payload_written_only_after_handshake :
  forall (sb sr : nat -> byte) (portName : string) (data0 : list byte)
         (sched : list Event) (s : System),
    sys_exec sb sr (boot portName data0) sched = Some s ->
    writing (pc (worker s)) = true ->
    synced (worker s) = true /\
    In (Emit (message (tr "Handshake stage 3 complete"))) (worker_part sched).
Proof.
  intros sb sr portName data0 sched s H W.
  pose proof (entitled_sys_exec sb sr sched _ _ _ _
                (consistent_boot portName data0) H eq_refl) as T.
  assert (S : synced (worker s) = true).
  { unfold entitled in T. destruct (pc (worker s)); try discriminate W; exact T. }
  split; [exact S|].
  destruct (synced_since sb sr _ _ _ (worker_side sb sr sched _ _ H) S) as [C|I];
    [discriminate C | exact I].
Qed.

(** Scenario D: the worker in its second write cycle. *)
Lemma X7_payload_witness :
  synced (worker scenario_D_end) = true /\
  In (Emit (message (tr "Handshake stage 3 complete"))) (worker_part scenario_D).
Proof.
  apply (X7_payload_written_only_after_handshake
           scenario_sync_bytes scenario_sync_resp "COM3" [x01; x02]
           scenario_D scenario_D_end).
  - vm_compute. reflexivity.
  - reflexivity.
Defined.

(** ** No deadlock (lines 21-33, 91-95) *)

Section NoDeadlock.

Variables sb sr : nat -> byte.

(** Apart from taking and giving back the lock, the worker's next action
    never waits on the shared fields. *)
Lemma worker_can_go (w : Worker) (m : Shared) :
  pc w <> Done ->
  (pc w = L92 -> m_mutex m = None) ->
  (pc w = L94 -> m_mutex m = Some TWorker) ->
  exists a w' m', step sb sr w a = Some w' /\ access TWorker a m = Some m'.
Proof.
  intros N Hl Hu. unfold step.
  destruct (pc w) eqn:Hpc; try (contradiction N; reflexivity).
  - destruct (isEmpty (m_portName w));
      eexists; eexists; eexists; (split; [apply expecting_refl | reflexivity]).
  - eexists; eexists; eexists; (split; [apply expecting_refl | reflexivity]).
  - exists (Open true). eexists. eexists. split; reflexivity.
  - exists (GetError 0). eexists. eexists. split; reflexivity.
  - eexists; eexists; eexists; (split; [apply expecting_refl | reflexivity]).
  - eexists; eexists; eexists; (split; [apply expecting_refl | reflexivity]).
  - eexists; eexists; eexists; (split; [apply expecting_refl | reflexivity]).
  - exists (LoadQuit (m_quit m)). eexists. exists m. split; [reflexivity|].
    cbn [access]. rewrite Bool.eqb_reflx. reflexivity.
  - destruct p.
    + exists Clear. eexists. exists m. cbn [writeAndExpectResponse].
      rewrite expecting_refl. split; reflexivity.
    + exists (Write [sb (index k)]). eexists. exists m. cbn [writeAndExpectResponse].
      rewrite expecting_refl. split; reflexivity.
    + exists (WaitForReadyRead 100 true). eexists. exists m.
      cbn [writeAndExpectResponse]. rewrite Z.eqb_refl. cbn [negb].
      split; reflexivity.
    + exists (Read 128 (-1) (buffer [])). cbn [writeAndExpectResponse].
      change ((128 =? 128) && read_result 128 (-1) (buffer [])) with true.
      change (expectation (-1) (buffer []) (sr (index k))) with false.
      cbn [negb]. destruct k; eexists; exists m; split; reflexivity.
  - eexists; eexists; eexists; (split; [apply expecting_refl | reflexivity]).
  - eexists; eexists; eexists; (split; [apply expecting_refl | reflexivity]).
  - eexists; eexists; eexists; (split; [apply expecting_refl | reflexivity]).
  - exists (LoadQuit (m_quit m)). eexists. exists m. split; [reflexivity|].
    cbn [access]. rewrite Bool.eqb_reflx. reflexivity.
  - exists Lock. eexists. eexists. split; [apply expecting_refl|].
    cbn [access]. rewrite (Hl eq_refl). reflexivity.
  - destruct (data m) as [d|old new] eqn:D.
    + exists (LoadData d). eexists. exists m. split; [reflexivity|].
      cbn [access]. rewrite D.
      destruct (list_eq_dec byte_eq_dec d d) as [_|C]; [reflexivity | contradiction C; reflexivity].
    + exists (LoadData new). eexists. exists m. split; [reflexivity|].
      cbn [access]. rewrite D. reflexivity.
  - eexists; eexists; eexists; (split; [apply expecting_refl | reflexivity]).
  - exists Unlock. eexists. eexists. split; [apply expecting_refl|].
    cbn [access]. rewrite (Hu eq_refl).
    destruct (Thread_eq_dec TWorker TWorker) as [_|C]; [reflexivity | contradiction C; reflexivity].
  - exists (WaitForReadyRead 40 false). eexists. exists m. rewrite Z.eqb_refl.
    split; reflexivity.
  - exists (CurrentTime EmptyString). eexists. exists m. split; reflexivity.
  - eexists; eexists; eexists; (split; [apply expecting_refl | reflexivity]).
  - exists (ReadAll []). eexists. exists m. split; reflexivity.
  - eexists; eexists; eexists; (split; [apply expecting_refl | reflexivity]).
  - eexists; eexists; eexists; (split; [apply expecting_refl | reflexivity]).
Qed.

Lemma worker_goes (s : System) :
  pc (worker s) <> Done ->
  (pc (worker s) = L92 -> m_mutex (shared s) = None) ->
  (pc (worker s) = L94 -> m_mutex (shared s) = Some TWorker) ->
  worker_can_step sb sr s.
Proof.
  intros N Hl Hu.
  destruct (worker_can_go (worker s) (shared s) N Hl Hu) as (a & w' & m' & E & A).
  exists a. eexists. cbn [sys_step]. rewrite E, A. reflexivity.
Qed.

(** Holding the lock, the owner's next action never waits. *)
Lemma owner_goes (s : System) (u : Updates) :
  consistent s u true -> owner_can_step sb sr s.
Proof.
  destruct s as [w p al [mx dt q]], u as [c k]. intros [O M _ _].
  cbn [pending worker shared committed calling data m_mutex] in O, M. subst mx.
  unfold owner_can_step. cbn [sys_step pending worker shared alive].
  inversion O; subst;
    eexists; eexists;
    (destruct (Action_eq_dec _ _) as [_|C]; [|contradiction C; reflexivity]);
    cbn [access m_mutex data m_quit];
    try (destruct (Thread_eq_dec TOwner TOwner) as [_|C]; [|contradiction C; reflexivity]);
    reflexivity.
Qed.

(** Without the owner holding the lock, the worker's next action never
    waits. *)
Lemma worker_goes_unless_owner_holds (s : System) (u : Updates) :
  consistent s u false -> pc (worker s) <> Done -> worker_can_step sb sr s.
Proof.
  intros [_ M _ _] N. apply worker_goes; [exact N | |];
    intros E; rewrite M, E; reflexivity.
Qed.

Lemma done_or_not (l : PC) : l = Done \/ l <> Done.
Proof. destruct l; (left; reflexivity) || (right; discriminate). Qed.

Lemma owner_waits_only_for_worker (s : System) (u : Updates) :
  consistent s u false ->
  pending s = [] \/ owner_can_step sb sr s \/
  (pc (worker s) <> Done /\ worker_can_step sb sr s).
Proof.
  intros C. pose proof C as [O M _ _].
  destruct (done_or_not (pc (worker s))) as [D|N].
  - (* the worker has returned: the lock is free and wait() returns *)
    rewrite D in M. cbn [in_critical_section] in M.
    destruct s as [w p al [mx dt q]], u as [c k].
    cbn [pending worker shared committed calling data m_mutex] in *. subst mx.
    inversion O; subst; auto; right; left;
      unfold owner_can_step, changeData, destructor;
      cbn [sys_step pending worker shared alive];
      eexists; eexists;
      (destruct (Action_eq_dec _ _) as [_|X]; [|contradiction X; reflexivity]);
      try rewrite D; cbn [access m_mutex data m_quit]; reflexivity.
  - destruct (in_critical_section (pc (worker s))) eqn:I.
    + right. right. split; [exact N|].
      exact (worker_goes_unless_owner_holds s u C N).
    + destruct s as [w p al [mx dt q]], u as [c k].
      cbn [pending worker shared committed calling data m_mutex] in *. subst mx.
      inversion O; subst; auto; right.
      * left. unfold owner_can_step, changeData.
        cbn [sys_step pending worker shared alive].
        eexists; eexists.
        destruct (Action_eq_dec _ _) as [_|X]; [|contradiction X; reflexivity].
        cbn [access m_mutex data m_quit]. reflexivity.
      * left. unfold owner_can_step, destructor.
        cbn [sys_step pending worker shared alive].
        eexists; eexists.
        destruct (Action_eq_dec _ _) as [_|X]; [|contradiction X; reflexivity].
        cbn [access m_mutex data m_quit]. reflexivity.
      * right. split; [exact N|].
        exact (worker_goes_unless_owner_holds _ _ C N).
Qed.

End NoDeadlock.

(** [X8] However the two threads interleave, they never block each other
    for good.  The worker either has returned, or can perform its next
    action, or is waiting for the lock while the owner holds it and can
    perform its own next action.  The owner is either between calls, or
    can perform its next action, or is waiting (for the lock, or in
    [wait()] for [run] to return) while the worker can perform its next
    action. *)
Theorem X8_threads_never_deadlock :
  forall (sb sr : nat -> byte) (portName : string) (data0 : list byte)
         (sched : list Event) (s : System),
    sys_exec sb sr (boot portName data0) sched = Some s ->
    (pc (worker s) = Done \/ worker_can_step sb sr s \/
     (m_mutex (shared s) = Some TOwner /\ owner_can_step sb sr s)) /\
    (pending s = [] \/ owner_can_step sb sr s \/
     (pc (worker s) <> Done /\ worker_can_step sb sr s)).
Proof.
  intros sb sr portName data0 sched s H.
  destruct (consistent_exec sb sr sched _ _ _ _ (consistent_boot portName data0) H)
    as [[|] C].
  - pose proof (owner_goes sb sr s _ C) as G.
    destruct C as [_ M _ _]. auto.
  - split; [|exact (owner_waits_only_for_worker sb sr s _ C)].
    destruct (done_or_not (pc (worker s))) as [D|N]; [auto|].
    right. left. exact (worker_goes_unless_owner_holds sb sr s _ C N).
Qed.

(** Scenario D, the worker holding the lock for its second write. *)
Lemma X8_no_deadlock_witness :
  (pc (worker scenario_D_end) = Done \/
   worker_can_step scenario_sync_bytes scenario_sync_resp scenario_D_end \/
   (m_mutex (shared scenario_D_end) = Some TOwner /\
    owner_can_step scenario_sync_bytes scenario_sync_resp scenario_D_end)) /\
  (pending scenario_D_end = [] \/
   owner_can_step scenario_sync_bytes scenario_sync_resp scenario_D_end \/
   (pc (worker scenario_D_end) <> Done /\
    worker_can_step scenario_sync_bytes scenario_sync_resp scenario_D_end)).
Proof.
  apply (X8_threads_never_deadlock scenario_sync_bytes scenario_sync_resp
           "COM3" [x01; x02] scenario_D scenario_D_end).
  vm_compute. reflexivity.
Defined.

(** ** Where the payload comes from (lines 15-19, 29-33, 93) *)

Lemma committed_from (sched : list Event) :
  forall (u r : Updates),
    fold_left note sched u = r ->
    (committed r = committed u \/ calling u = Some (committed r) \/
     In (OwnerCalls (ChangeData (committed r))) sched) /\
    (forall x, calling r = Some x ->
               calling u = Some x \/ In (OwnerCalls (ChangeData x)) sched).
Proof.
  induction sched as [|e sched IH]; intros u r E.
  - simpl in E. subst r. auto.
  - cbn [fold_left] in E. destruct (IH (note u e) r E) as [A B]. clear IH E.
    assert (Later : forall x, In (OwnerCalls (ChangeData x)) sched ->
                              In (OwnerCalls (ChangeData x)) (e :: sched))
      by (intros x I; right; exact I).
    destruct e as [a|[d|]|a]; cbn [note committed calling] in A, B.
    + split; [destruct A as [A|[A|A]]; auto|].
      intros x Hx. destruct (B x Hx); auto.
    + split.
      * destruct A as [A|[A|A]]; auto.
        injection A as A. right. right. left. rewrite <- A. reflexivity.
      * intros x Hx. destruct (B x Hx) as [X|I]; auto.
        injection X as <-. right. left. reflexivity.
    + split; [destruct A as [A|[A|A]]; auto|].
      intros x Hx. destruct (B x Hx); auto.
    + destruct a; cbn [note committed calling] in A, B;
        try (split; [destruct A as [A|[A|A]]; auto|];
             intros x Hx; destruct (B x Hx); auto).
      split.
      * destruct A as [A|[A|A]]; [|discriminate A|auto].
        destruct (calling u); [right; left; rewrite A; reflexivity | auto].
      * intros x Hx. destruct (B x Hx) as [X|I]; [discriminate X | auto].
Qed.

(** [X9] The bytes the worker has read from [data] for the write of line 93
    are the payload given to the constructor or the argument of a call of
    [changeData] made before; with no such call they are the constructor's
    payload.  The worker never sends bytes that were not supplied. *)
Theorem X9_payload_is_one_that_was_supplied :
  forall (sb sr : nat -> byte) (portName : string) (data0 : list byte)
         (sched : list Event) (s : System) (d : list byte),
    sys_exec sb sr (boot portName data0) sched = Some s ->
    pc (worker s) = L93w d ->
    (d = data0 \/ In (OwnerCalls (ChangeData d)) sched) /\
    ((forall d', ~ In (OwnerCalls (ChangeData d')) sched) -> d = data0).
Proof.
  intros sb sr portName data0 sched s d H Hd.
  destruct (consistent_exec sb sr sched _ _ _ _ (consistent_boot portName data0) H)
    as [oh [_ _ _ L]].
  specialize (L d Hd).
  destruct (committed_from sched {| committed := data0; calling := None |} _ eq_refl)
    as [A _].
  cbn [committed calling] in A. rewrite <- L in A.
  assert (P : d = data0 \/ In (OwnerCalls (ChangeData d)) sched).
  { destruct A as [A|[A|A]]; [auto | discriminate A | auto]. }
  split; [exact P|].
  intros N. destruct P as [P|P]; [exact P | contradiction (N d P)].
Qed.

(** Scenario D, then the worker's read of the new payload. *)
Lemma X9_payload_witness :
  ([x01; x02; x03] = [x01; x02] \/
   In (OwnerCalls (ChangeData [x01; x02; x03]))
      (scenario_D ++ [WorkerDoes (LoadData [x01; x02; x03])])) /\
  ((forall d', ~ In (OwnerCalls (ChangeData d'))
                    (scenario_D ++ [WorkerDoes (LoadData [x01; x02; x03])])) ->
   [x01; x02; x03] = [x01; x02]).
Proof.
  apply (X9_payload_is_one_that_was_supplied
           scenario_sync_bytes scenario_sync_resp "COM3" [x01; x02]
           (scenario_D ++ [WorkerDoes (LoadData [x01; x02; x03])])
           scenario_D_next).
  - vm_compute. reflexivity.
  - reflexivity.
Defined.

(** ** Destruction (lines 21-27) *)

Section Destruction.

Variables sb sr : nat -> byte.

Lemma tearing_down_step (s s' : System) (u : Updates) (oh : bool) (e : Event) :
  consistent s u oh -> sys_step sb sr s e = Some s' ->
  tearing_down s -> tearing_down s'.
Proof.
  intros C H [J Q]. destruct e as [a|m|a].
  - (* the worker: it leaves the owner alone, and has no step once returned *)
    pose proof (worker_keeps_quit sb sr s s' a H) as K.
    cbn [sys_step] in H.
    destruct (step sb sr (worker s) a) as [w'|] eqn:E; [|discriminate H].
    destruct (access TWorker a (shared s)) as [m'|]; [|discriminate H].
    injection H as <-. cbn [shared] in K.
    split; cbn [alive pending worker shared].
    + intros A. destruct (J A) as [I|[P D]]; [auto|].
      unfold step in E. rewrite D in E. discriminate E.
    + intros A N. rewrite K. exact (Q A N).
  - cbn [sys_step] in H. destruct (pending s) eqn:Pe; [|discriminate H].
    destruct (alive s) eqn:Al; [|discriminate H]. injection H as <-.
    split; cbn [alive pending worker shared]; destruct m; try discriminate.
    + intros _. left. simpl. auto 10.
    + intros _ N. contradiction N. simpl. auto.
  - pose proof C as [O _ _ _].
    destruct s as [w p al [mx dt q]], u as [c k].
    cbn [sys_step pending worker shared alive] in H.
    cbn [pending worker shared committed calling data m_mutex alive m_quit] in *.
    destruct p as [|a' rest]; [discriminate H|].
    destruct (Action_eq_dec a a') as [->|]; [|discriminate H].
    inversion O; subst; cbn [access m_mutex data m_quit] in H;
      try (destruct mx as [[|]|]; try discriminate H; cbn in H);
      try (destruct (pc w) eqn:Hpc; try discriminate H);
      injection H as <-;
      (split; cbn [alive pending worker shared m_quit];
       [ intros A; destruct (J A) as [I|[P D]]; try discriminate P;
         simpl in I; simpl;
         repeat match goal with
           | I : _ \/ _ |- _ => destruct I as [I|I]; try discriminate I
           | I : False |- _ => destruct I
           end; auto 10
       | intros A N; try reflexivity; apply (Q A); intros I; apply N;
         simpl in I; simpl;
         repeat match goal with
           | I : _ \/ _ |- _ => destruct I as [I|I]; try discriminate I
           | I : False |- _ => destruct I
           end; auto 10 ]).
Qed.

Lemma tearing_down_exec (sched : list Event) :
  forall (s s' : System) (u : Updates) (oh : bool),
    consistent s u oh -> sys_exec sb sr s sched = Some s' ->
    tearing_down s -> tearing_down s'.
Proof.
  induction sched as [|e sched IH]; intros s s' u oh C H T; simpl in H.
  - injection H as <-. exact T.
  - destruct (sys_step sb sr s e) as [s1|] eqn:E; [|discriminate H].
    destruct (consistent_step sb sr s s1 u oh e C E) as [oh1 C1].
    exact (IH s1 s' _ oh1 C1 H (tearing_down_step s s1 u oh e C E T)).
Qed.

End Destruction.

(** [X10] When the destructor has returned, [run] has returned, the
    StopFlag is set, the lock is free and [data] is whole; and if the port
    was opened, the worker's last action was to close it.  No thread is
    left running on a destroyed worker. *)
Theorem X10_destructor_returns_after_run :
  forall (sb sr : nat -> byte) (portName : string) (data0 : list byte)
         (sched : list Event) (s : System),
    sys_exec sb sr (boot portName data0) sched = Some s ->
    alive s = false -> pending s = [] ->
    pc (worker s) = Done /\
    m_quit (shared s) = true /\
    m_mutex (shared s) = None /\
    (exists d, data (shared s) = Whole d) /\
    (In (Open true) (worker_part sched) ->
     exists t1, worker_part sched = t1 ++ [Close]).
Proof.
  intros sb sr portName data0 sched s H A P.
  destruct (consistent_exec sb sr sched _ _ _ _ (consistent_boot portName data0) H)
    as [oh C].
  assert (T0 : tearing_down (boot portName data0)).
  { split; intros X; discriminate X. }
  destruct (tearing_down_exec sb sr sched _ _ _ _
              (consistent_boot portName data0) H T0) as [J Q].
  destruct (J A) as [I|[_ D]]; [rewrite P in I; destruct I|].
  split; [exact D|].
  split; [apply (Q A); rewrite P; intros []|].
  destruct C as [O M _ _]. rewrite P in O.
  assert (W : oh = false /\ exists d, data (shared s) = Whole d).
  { inversion O. split; [reflexivity|]. eexists. reflexivity. }
  destruct W as [-> W].
  split; [rewrite M, D; reflexivity|].
  split; [exact W|].
  intros I.
  exact (returned_after_open sb sr portName _ _ (worker_side sb sr sched _ _ H) D I).
Qed.

(** The owner destroys the worker during a write cycle. *)
Lemma X10_destructor_witness :
  pc (worker all_returned) = Done /\
  m_quit (shared all_returned) = true /\
  m_mutex (shared all_returned) = None /\
  (exists d, data (shared all_returned) = Whole d) /\
  (In (Open true) (worker_part (scenario_stop_before ++ scenario_stop_after)) ->
   exists t1, worker_part (scenario_stop_before ++ scenario_stop_after) = t1 ++ [Close]).
Proof.
  apply (X10_destructor_returns_after_run
           scenario_sync_bytes scenario_sync_resp "COM3" [x01; x02]
           (scenario_stop_before ++ scenario_stop_after) all_returned).
  - vm_compute. reflexivity.
  - reflexivity.
  - reflexivity.
Defined.

(** ** No use of a port that is not open (lines 58-103) *)

Lemma port_io_needs_open sb sr (w w' : Worker) (a : Action) :
  step sb sr w a = Some w' -> port_io a = true -> port_open (pc w) = true.
Proof.
  intros H P. inv_step H; try discriminate P; reflexivity.
Qed.

(** [X11] In every run, each call that clears, writes to, waits on, reads
    from or closes the port comes after a call of [open] that returned
    true: the worker never uses a port it has not opened, and after a
    failed [open] it does not use the port at all. *)
Theorem X11_port_used_only_when_open :
  forall (sb sr : nat -> byte) (name : string) (t1 t2 : list Action)
         (a : Action) (w : Worker),
    exec sb sr (start name) (t1 ++ a :: t2) = Some w ->
    port_io a = true ->
    In (Open true) t1 /\ ~ In (Open false) t1 /\ ~ In Close t1.
Proof.
  intros sb sr name t1 t2 a w H P.
  rewrite exec_app in H.
  destruct (exec sb sr (start name) t1) as [w1|] eqn:E1; [|discriminate H].
  simpl in H. destruct (step sb sr w1 a) as [w2|] eqn:E2; [|discriminate H].
  pose proof (port_io_needs_open sb sr w1 w2 a E2 P) as O1.
  destruct (port_open_since sb sr t1 _ _ E1 O1) as [C|I]; [discriminate C|].
  split; [exact I|].
  destruct (run_shape sb sr name t1 w1 E1)
    as [-> | [[_ ->] | (_ & r & F & [-> | [-> | [ok ->]]])]];
    try (destruct I as [X|I]; try discriminate X);
    try (destruct I as [X|I]; try discriminate X);
    try (destruct I as [X|I]; try discriminate X);
    try contradiction.
  - injection X as ->.
    rewrite Forall_forall in F.
    split; intros [Y|[Y|[Y|Y]]]; try discriminate Y.
    + apply F in Y. discriminate Y.
    + change (SetPortName name :: SetBaudRate 19200 :: Open true :: r)
        with ([SetPortName name; SetBaudRate 19200; Open true] ++ r) in E1.
      rewrite exec_app in E1.
      destruct (exec sb sr (start name) [SetPortName name; SetBaudRate 19200; Open true])
        as [v|] eqn:Ev; [|discriminate E1].
      assert (Pv : port_open (pc v) = true).
      { destruct (port_open_since sb sr r v w1 E1 O1) as [Q|Q]; [exact Q|].
        apply F in Q. discriminate Q. }
      destruct (port_open_exec sb sr r v w1 Pv E1) as [[_ N] | [D _]];
        [exact (N Y) | rewrite D in O1; discriminate O1].
  - apply (proj1 (Forall_forall _ _) F) in I. discriminate I.
Qed.

(** Scenario A: the first probe is written after the port was opened. *)
Lemma X11_port_used_witness :
  In (Open true) (firstn 7 scenario_A) /\
  ~ In (Open false) (firstn 7 scenario_A) /\
  ~ In Close (firstn 7 scenario_A).
Proof.
  apply (X11_port_used_only_when_open scenario_sync_bytes scenario_sync_resp
           "COM3" (firstn 7 scenario_A) (skipn 8 scenario_A) (Write [x55])
           (goto just_synced L91)).
  - vm_compute. reflexivity.
  - reflexivity.
Defined.
